(** * ICP, the Insurance Claim Platform: claim workflow and AI gateway

    A shallow embedding of the claim handlers of [App.tsx] and
    [components/ClaimDetail.tsx], of the service functions of
    [services/geminiService.ts] and of the data model of [types.ts],
    followed by the properties of the workflow specification.

    Conventions of the embedding.
    - A JavaScript [number] holding an amount is a binary64 float
      ([PrimFloat.float]); [Date.now()] readings are integers ([Z]) and are
      passed to the handlers as arguments, one argument per call site.
    - An expression that throws, or a promise that rejects, is [None].
    - The declarations of TypeScript are erased at run time. The output of
      the model is parsed and stored unchecked, so parsed JSON is a [Json]
      value, and the fields it flows into (the data fields of an
      [Estimate], [aiDamageAssessment]) hold a [JsValue]: any JSON value,
      or [undefined].
    - The [comments] arrays are mutated in place by [push] while being shared
      between the claim object of the React state and its spread copy, so they
      live in a store of arrays ([Arrays]) and a claim holds a reference.
      Claim objects themselves are never mutated once published, so they are
      values.
    - Platform functions ([parseFloat], [Intl.NumberFormat], [trim],
      [JSON.parse]) are parameters; the file reader and the remote model are
      an environment ([Env]) chosen afresh at every call.
    - Names are those of the source. Where two interfaces share a property
      name the projections are told apart: [claim_id] and [comment_id] for
      [id], [data_policyNumber] and the like for the fields of
      [CreateClaimData], [file_type] for [File.type], [response_text] for
      [response.text]. *)

From Stdlib Require Import Floats ZArith Ascii.
From Stdlib Require Uint63.
From stdpp Require Import base option list strings pretty relations.

Set Warnings "-inexact-float,-register-all".
Local Open Scope Z_scope.

(** ** Data model ([types.ts]) *)

Inductive UserRole := Policyholder | RepairShop | InsuranceAgent.

(** The string value of an enum member, as it appears in [authorName]. *)
Definition UserRole_value (r : UserRole) : string :=
  match r with
  | Policyholder => "Policyholder"
  | RepairShop => "Repair Shop"
  | InsuranceAgent => "Insurance Agent"
  end.

Inductive ClaimStatus :=
  | Submitted | AIReview | Estimated | Approved
  | InRepair | PickUpPending | Closed | Rejected.

Global Instance UserRole_eq_dec : EqDecision UserRole.
Proof. solve_decision. Defined.
Global Instance ClaimStatus_eq_dec : EqDecision ClaimStatus.
Proof. solve_decision. Defined.

Record Comment := {
  comment_id : string;
  authorRole : UserRole;
  authorName : string;
  text : string;
  timestamp : Z
}.

(** The union type ['AI' | 'Repair Shop' | 'Insurance Agent']. *)
Inductive EstimateSource := SourceAI | SourceRepairShop | SourceInsuranceAgent.

(** A value as [JSON.parse] returns it. *)
Inductive Json :=
  | JNull
  | JBool (b : bool)
  | JNumber (x : float)
  | JString (s : string)
  | JArray (items : list Json)
  | JObject (props : list (string * Json)).

(** What a property holds at run time. The declarations [number] and
    [string] of TypeScript are erased: a property that is filled from
    parsed JSON holds whatever was parsed, or [undefined] ([None]). A
    number or a string stands for the value it is. *)
Definition JsValue := option Json.

Definition js_number (x : float) : JsValue := Some (JNumber x).
Definition js_string (s : string) : JsValue := Some (JString s).

Coercion js_number : float >-> JsValue.
Coercion js_string : string >-> JsValue.

(** The number a value is; not-a-number for a value that is no number. *)
Definition number (v : JsValue) : float :=
  match v with
  | Some (JNumber x) => x
  | _ => nan
  end.

(** The interface [Estimate]; its four data fields are declared [number]
    and [string]. *)
Record Estimate := {
  totalCost : JsValue;
  laborCost : JsValue;
  partsCost : JsValue;
  details : JsValue;
  source : EstimateSource
}.

Record RepairShopSuggestion := {
  name : string;
  address : string;
  rating : option string;
  websiteUri : option string
}.

(** A reference to a [Comment[]] array, and the arrays allocated so far. *)
Abbreviation ref := nat (only parsing).
Abbreviation Arrays := (list (list Comment)) (only parsing).

Record Claim := {
  claim_id : string;
  policyNumber : string;
  policyholderName : string;
  vehicleModel : string;
  vehicleYear : string;
  accidentDetails : string;
  status : ClaimStatus;
  damageImages : list string;
  aiDamageAssessment : JsValue;
  aiEstimate : option Estimate;
  aiConfidenceScore : option float;
  suggestedShops : option (list RepairShopSuggestion);
  currentEstimate : option Estimate;
  repairShopEstimate : option Estimate;
  agentEstimate : option Estimate;
  comments : ref;
  createdAt : Z;
  updatedAt : Z
}.

(** A browser [File]: its MIME type and an opaque handle; what reading it
    yields is the environment's business. *)
Record File := {
  file_handle : nat;
  file_type : string
}.

Record CreateClaimData := {
  data_policyNumber : string;
  data_vehicleModel : string;
  data_vehicleYear : string;
  data_accidentDetails : string;
  images : list File
}.

(** ** JavaScript idioms *)

(** [!s] on a string: only the empty string is falsy. *)
Definition falsy (s : string) : bool := bool_decide (s = "").

(** [s || d] on a possibly undefined string. *)
Definition or_else (s : option string) (d : string) : string :=
  match s with
  | Some v => if falsy v then d else v
  | None => d
  end.

(** [!v] on any value: [undefined], [null], [false], the zeros, not-a-number
    and the empty string are falsy. *)
Definition js_falsy (v : JsValue) : bool :=
  match v with
  | None | Some JNull => true
  | Some (JBool b) => negb b
  | Some (JNumber x) => PrimFloat.eqb x 0 || negb (PrimFloat.eqb x x)
  | Some (JString s) => falsy s
  | Some (JArray _) | Some (JObject _) => false
  end.

(** [v || d] on any value. *)
Definition js_or (v d : JsValue) : JsValue := if js_falsy v then d else v.

(** [s.split(',')]. *)
Fixpoint split_comma (s : string) : list string :=
  match s with
  | EmptyString => [""]
  | String c rest =>
      if Ascii.eqb c ","%char then "" :: split_comma rest
      else match split_comma rest with
           | piece :: pieces => String c piece :: pieces
           | [] => [String c ""]
           end
  end.

(** [arr.push(x)] on the array behind reference [r]. *)
Definition push (r : ref) (x : Comment) (h : Arrays) : Arrays :=
  alter (λ arr, arr ++ [x]) r h.

(** An array literal: a fresh array, whose reference is returned. *)
Definition alloc (arr : list Comment) (h : Arrays) : ref * Arrays :=
  (length h, h ++ [arr]).

(** Reading the array behind a reference. *)
Definition deref (h : Arrays) (r : ref) : list Comment := default [] (h !! r).

(** ** Object spread with overridden properties *)

(** [{ ...c, status: s }] *)
Definition with_status (s : ClaimStatus) (c : Claim) : Claim :=
  {| claim_id := claim_id c; policyNumber := policyNumber c;
     policyholderName := policyholderName c; vehicleModel := vehicleModel c;
     vehicleYear := vehicleYear c; accidentDetails := accidentDetails c;
     status := s;
     damageImages := damageImages c;
     aiDamageAssessment := aiDamageAssessment c; aiEstimate := aiEstimate c;
     aiConfidenceScore := aiConfidenceScore c;
     suggestedShops := suggestedShops c;
     currentEstimate := currentEstimate c;
     repairShopEstimate := repairShopEstimate c;
     agentEstimate := agentEstimate c;
     comments := comments c; createdAt := createdAt c;
     updatedAt := updatedAt c |}.

(** [{ ...c, comments: r }] *)
Definition with_comments (r : ref) (c : Claim) : Claim :=
  {| claim_id := claim_id c; policyNumber := policyNumber c;
     policyholderName := policyholderName c; vehicleModel := vehicleModel c;
     vehicleYear := vehicleYear c; accidentDetails := accidentDetails c;
     status := status c;
     damageImages := damageImages c;
     aiDamageAssessment := aiDamageAssessment c; aiEstimate := aiEstimate c;
     aiConfidenceScore := aiConfidenceScore c;
     suggestedShops := suggestedShops c;
     currentEstimate := currentEstimate c;
     repairShopEstimate := repairShopEstimate c;
     agentEstimate := agentEstimate c;
     comments := r; createdAt := createdAt c;
     updatedAt := updatedAt c |}.

(** [c.repairShopEstimate = e] on a fresh copy of [c]. *)
Definition with_repairShopEstimate (e : Estimate) (c : Claim) : Claim :=
  {| claim_id := claim_id c; policyNumber := policyNumber c;
     policyholderName := policyholderName c; vehicleModel := vehicleModel c;
     vehicleYear := vehicleYear c; accidentDetails := accidentDetails c;
     status := status c;
     damageImages := damageImages c;
     aiDamageAssessment := aiDamageAssessment c; aiEstimate := aiEstimate c;
     aiConfidenceScore := aiConfidenceScore c;
     suggestedShops := suggestedShops c;
     currentEstimate := currentEstimate c;
     repairShopEstimate := Some e;
     agentEstimate := agentEstimate c;
     comments := comments c; createdAt := createdAt c;
     updatedAt := updatedAt c |}.

(** [c.agentEstimate = e; c.currentEstimate = e] on a fresh copy of [c]. *)
Definition with_agentEstimate (e : Estimate) (c : Claim) : Claim :=
  {| claim_id := claim_id c; policyNumber := policyNumber c;
     policyholderName := policyholderName c; vehicleModel := vehicleModel c;
     vehicleYear := vehicleYear c; accidentDetails := accidentDetails c;
     status := status c;
     damageImages := damageImages c;
     aiDamageAssessment := aiDamageAssessment c; aiEstimate := aiEstimate c;
     aiConfidenceScore := aiConfidenceScore c;
     suggestedShops := suggestedShops c;
     currentEstimate := Some e;
     repairShopEstimate := repairShopEstimate c;
     agentEstimate := Some e;
     comments := comments c; createdAt := createdAt c;
     updatedAt := updatedAt c |}.

(** The update with the AI results, step 5 of [handleCreateClaim]:
    [{ ...c, damageImages, aiDamageAssessment, aiEstimate, currentEstimate,
       suggestedShops, status: ClaimStatus.Estimated }]. *)
Definition with_ai_results (processedImages : list string)
    (assessment : JsValue) (estimate : Estimate)
    (shops : list RepairShopSuggestion) (c : Claim) : Claim :=
  {| claim_id := claim_id c; policyNumber := policyNumber c;
     policyholderName := policyholderName c; vehicleModel := vehicleModel c;
     vehicleYear := vehicleYear c; accidentDetails := accidentDetails c;
     status := Estimated;
     damageImages := processedImages;
     aiDamageAssessment := assessment; aiEstimate := Some estimate;
     aiConfidenceScore := aiConfidenceScore c;
     suggestedShops := Some shops;
     currentEstimate := Some estimate;
     repairShopEstimate := repairShopEstimate c;
     agentEstimate := agentEstimate c;
     comments := comments c; createdAt := createdAt c;
     updatedAt := updatedAt c |}.

(** ** Platform and environment *)

(** Deterministic functions of the JavaScript platform. [JSON_parse s] is
    [JSON.parse(s)], [None] when it throws a [SyntaxError]; an object is
    given by its own properties, each key once. [formatCurrency] is the
    [en-US] / [USD] [Intl.NumberFormat]. *)
Class Platform := {
  trim : string → string;
  parseFloat : string → float;
  formatCurrency : float → string;
  JSON_parse : string → option Json
}.

(** The own property [key] of an object with the properties [props]. *)
Fixpoint own_property (props : list (string * Json)) (key : string) : JsValue :=
  match props with
  | [] => None
  | (k, v) :: rest => if decide (k = key) then Some v else own_property rest key
  end.

(** [value.key] on a parsed value, for a key that no prototype defines (such
    are the five keys that [analyzeDamage] reads): a [TypeError] on [null]
    ([None]), the own property of an object, [undefined] on anything
    else. *)
Definition read_property (value : Json) (key : string) : option JsValue :=
  match value with
  | JNull => None
  | JObject props => Some (own_property props key)
  | _ => Some None
  end.

(** A request part: [{ inlineData: { data, mimeType } }] or [{ text }]. *)
Record InlineData := { data : string; mimeType : string }.
Inductive Part := InlinePart (inlineData : InlineData) | TextPart (t : string).

Inductive Contents := PartsContents (parts : list Part) | TextContents (t : string).

(** The two [config] objects the service sends: the JSON response schema of
    [analyzeDamage] and the [googleMaps] tool of [findRepairShops]. *)
Inductive Config := JsonSchemaConfig | GoogleMapsConfig.

Record Request := { model : string; contents : Contents; config : Config }.

(** The part of a [generateContent] response the service reads. *)
Record GroundingChunkWeb := { uri : option string; title : option string }.
Record GroundingChunk := { web : option GroundingChunkWeb }.
Record GroundingMetadata := { groundingChunks : option (list GroundingChunk) }.
Record Candidate := { groundingMetadata : option GroundingMetadata }.
Record Response := {
  response_text : option string;
  candidates : option (list Candidate)
}.

(** What the outside world answers during one call of a service function:
    [readAsDataURL f] is the data URL the [FileReader] produces for [f], or
    [None] when the read errors; [generateContent req] is the model's
    response, or [None] when the call throws. *)
Record Env := {
  readAsDataURL : File → option string;
  generateContent : Request → option Response
}.

(** ** The AI gateway ([services/geminiService.ts]) *)

(** [fileToGenerativePart]: the promise rejects through [reader.onerror];
    otherwise it resolves with the piece of the data URL after the first
    comma. A data URL always has that comma; without one the source stores
    [undefined], which this model renders as the empty string. *)
Definition fileToGenerativePart (env : Env) (file : File) : option InlineData :=
  base64String ← readAsDataURL env file;
  let base64Data := default "" (split_comma base64String !! 1%nat) in
  Some {| data := base64Data; mimeType := file_type file |}.

Record AnalysisResult := { assessment : JsValue; estimate : Estimate }.

Definition analysis_prompt (vehicleInfo : string) : string :=
  "
    You are an expert car insurance adjuster AI (AICA). 
    Analyze the uploaded images of a " +:+ vehicleInfo +:+ ".
    1. Describe the visible damage in detail (scratches, dents, structural).
    2. Estimate the repair costs based on industry standards for this vehicle model.
    3. Provide a breakdown of Parts vs Labor costs.
    
    Return the response in JSON format matching the schema.
  ".

(** The value returned from the [catch] block of [analyzeDamage]. *)
Definition degraded_analysis : AnalysisResult :=
  {| assessment := "AI Analysis unavailable. Please review manually.";
     estimate := {| totalCost := 0%float; laborCost := 0%float;
                    partsCost := 0%float;
                    details := "Manual estimation required.";
                    source := SourceAI |} |}.

(** The argument of [generateContent] in [analyzeDamage]. *)
Definition analysis_request (imageParts : list InlineData) (prompt : string)
    : Request :=
  {| model := "gemini-2.5-flash";
     contents := PartsContents (map InlinePart imageParts ++ [TextPart prompt]);
     config := JsonSchemaConfig |}.

(** The body of the [try] block of [analyzeDamage]: [None] when it throws.
    The five properties are read from whatever was parsed and returned as
    they are; nothing checks that they are there or what they are. *)
Definition analyzeDamage_try `{Platform} (env : Env)
    (imageParts : list InlineData) (prompt : string) : option AnalysisResult :=
  response ← generateContent env (analysis_request imageParts prompt);
  result ← JSON_parse (or_else (response_text response) "{}");
  result_assessment ← read_property result "assessment";
  result_totalCost ← read_property result "totalCost";
  result_laborCost ← read_property result "laborCost";
  result_partsCost ← read_property result "partsCost";
  result_repairDetails ← read_property result "repairDetails";
  Some {| assessment := result_assessment;
          estimate := {| totalCost := result_totalCost;
                         laborCost := result_laborCost;
                         partsCost := result_partsCost;
                         details := result_repairDetails;
                         source := SourceAI |} |}.

(** [analyzeDamage]. The image parts are awaited before the [try], so a
    failed read rejects the returned promise; whatever the [try] block
    throws is caught and replaced by the degraded result. *)
Definition analyzeDamage `{Platform} (env : Env) (imageFiles : list File)
    (vehicleInfo : string) : option AnalysisResult :=
  imageParts ← mapM (fileToGenerativePart env) imageFiles;
  let prompt := analysis_prompt vehicleInfo in
  Some (default degraded_analysis (analyzeDamage_try env imageParts prompt)).

(** The list returned when no suggestion was extracted. *)
Definition hardcoded_shops : list RepairShopSuggestion :=
  [ {| name := "FixItRight Auto Body"; address := "123 Main St, Local City";
       rating := Some "4.8"; websiteUri := None |};
    {| name := "Prestige Collision Center"; address := "450 Oak Ave, Local City";
       rating := Some "4.5"; websiteUri := None |};
    {| name := "Quick Fix Garage"; address := "789 Pine Ln, Local City";
       rating := Some "4.2"; websiteUri := None |} ].

(** [response.candidates?.[0]?.groundingMetadata?.groundingChunks] *)
Definition chunks_of (response : Response) : option (list GroundingChunk) :=
  cs ← candidates response;
  candidate ← head cs;
  metadata ← groundingMetadata candidate;
  groundingChunks metadata.

(** One round of the [forEach]: a suggestion is pushed when
    [chunk.web?.uri && chunk.web?.title] is truthy. *)
Definition suggestion_of_chunk (chunk : GroundingChunk) : option RepairShopSuggestion :=
  match web chunk with
  | Some {| uri := Some u; title := Some t |} =>
      if negb (falsy u) && negb (falsy t)
      then Some {| name := t;
                   address := "Check website for address";
                   rating := None;
                   websiteUri := Some u |}
      else None
  | _ => None
  end.

Definition extract_suggestions (response : Response) : list RepairShopSuggestion :=
  match chunks_of response with
  | Some chunks => omap suggestion_of_chunk chunks
  | None => []
  end.

(** The argument of [generateContent] in [findRepairShops]. *)
Definition shops_request (locationDesc : string) : Request :=
  {| model := "gemini-2.5-flash";
     contents := TextContents
       ("Find top rated auto body repair shops in or near "
        +:+ locationDesc +:+ ". Provide their names and addresses.");
     config := GoogleMapsConfig |}.

(** [findRepairShops]; the argument is [None] when the caller omits it, and
    the default parameter value applies. The whole body is inside the [try],
    so the promise never rejects. *)
Definition findRepairShops (env : Env) (locationDesc : option string)
    : list RepairShopSuggestion :=
  let locationDesc := default "San Francisco, CA" locationDesc in
  match generateContent env (shops_request locationDesc) with
  | Some response =>
      let suggestions := extract_suggestions response in
      if decide (length suggestions = 0%nat) then hardcoded_shops
      else suggestions
  | None => []
  end.

(** ** Application state ([App.tsx]) *)

(** The React state of [App] that the handlers read or write, the comment
    arrays, and the intake calls that are suspended at an [await]
    ([pending]: the [newId] and [data] their continuation closes over). *)
Record AppState := {
  userRole : UserRole;
  claims : list Claim;
  selectedClaimId : option string;
  arrays : Arrays;
  pending : list (string * CreateClaimData)
}.

(** [INITIAL_CLAIMS], evaluated when the module is loaded; its three
    [Date.now()] readings are [t_comment], [t_created] and [t_updated].
    Its comment array is the one behind reference [0]. *)
Definition INITIAL_estimate : Estimate :=
  {| totalCost := 1200%float; laborCost := 500%float; partsCost := 700%float;
     details := "Replace Rear Bumper Cover, Replace Impact Absorber, Paint & Blend.";
     source := SourceAI |}.

Definition INITIAL_comments (t_comment : Z) : list Comment :=
  [ {| comment_id := "c1"; authorRole := Policyholder; authorName := "John Doe";
       text := "Happened yesterday around 5pm.";
       timestamp := t_comment - 100000 |} ].

Definition INITIAL_claim (t_created t_updated : Z) : Claim :=
  {| claim_id := "1";
     policyNumber := "POL-883920";
     policyholderName := "John Doe";
     vehicleModel := "Honda Civic";
     vehicleYear := "2020";
     accidentDetails := "Rear-ended at a stop sign. Bumper dented.";
     status := Estimated;
     damageImages := [];
     aiDamageAssessment := "Observed significant denting on rear bumper cover. Impact absorber likely compromised. Trunk lid alignment appears normal.";
     aiEstimate := Some INITIAL_estimate;
     aiConfidenceScore := None;
     suggestedShops := Some
       [ {| name := "Downtown Auto Fix"; address := "123 Main St";
            rating := Some "4.5"; websiteUri := None |};
         {| name := "Quick Collision"; address := "44 Broadway";
            rating := Some "4.2"; websiteUri := None |} ];
     currentEstimate := Some INITIAL_estimate;
     repairShopEstimate := None;
     agentEstimate := None;
     comments := 0%nat;
     createdAt := t_created - 200000;
     updatedAt := t_updated |}.

Definition INITIAL_CLAIMS (t_created t_updated : Z) : list Claim :=
  [ INITIAL_claim t_created t_updated ].

(** The state of the first render. *)
Definition initial_state (t_comment t_created t_updated : Z) : AppState :=
  {| userRole := Policyholder;
     claims := INITIAL_CLAIMS t_created t_updated;
     selectedClaimId := None;
     arrays := [ INITIAL_comments t_comment ];
     pending := [] |}.

(** [handleUpdateClaim], the [onUpdateClaim] prop of [ClaimDetail]. *)
Definition handleUpdateClaim (updatedClaim : Claim) (prev : list Claim) : list Claim :=
  map (λ c, if decide (claim_id c = claim_id updatedClaim) then updatedClaim else c) prev.

(** [claims.find(c => c.id === selectedClaimId)], the [claim] prop. *)
Definition selectedClaim (s : AppState) : option Claim :=
  sel ← selectedClaimId s;
  find (λ c, bool_decide (claim_id c = sel)) (claims s).

(** ** The claim handlers ([components/ClaimDetail.tsx]) *)

(** What a handler does: it may mutate comment arrays in place, and it calls
    [onUpdateClaim] at most once; the second component is the claim it
    passes, [None] when it returns without that call. The [set...('')]
    calls only clear the input fields of the form and are left out, as is
    [setLoading]; [handleNegotiate] is declared [async] but awaits nothing,
    so every handler runs to its end before the next event. *)
Definition Handler := Arrays → Arrays * option Claim.

Section Handlers.
Context `{Platform}.
Variables (claim : Claim) (userRole : UserRole).

Let isAgent : bool := bool_decide (userRole = InsuranceAgent).
Let isShop : bool := bool_decide (userRole = RepairShop).

(** [[...claim.comments, newComment]] copies the comments into a fresh
    array; the array of [claim] is left as it was. *)
Definition handleAddComment (commentText : string) (t_id t_ts : Z) : Handler := λ h,
  if falsy (trim commentText) then (h, None) else
  let newComment :=
    {| comment_id := pretty t_id; authorRole := userRole;
       authorName := UserRole_value userRole;
       text := commentText; timestamp := t_ts |} in
  let '(r, h') := alloc (deref h (comments claim) ++ [newComment]) h in
  (h', Some (with_comments r claim)).

Definition handleStatusChange (newStatus : ClaimStatus) : Handler := λ h,
  (h, Some (with_status newStatus claim)).

(** [updatedClaim] is a spread copy, so [updatedClaim.comments] is the
    array of [claim]: the [push] is seen through both. *)
Definition handleRejectClaim (rejectReason : string) (t_id t_ts : Z) : Handler := λ h,
  if falsy rejectReason then (h, None) else
  let updatedClaim := with_status Rejected claim in
  let h' := push (comments updatedClaim)
    {| comment_id := pretty t_id; authorRole := InsuranceAgent;
       authorName := "Agent";
       text := "CLAIM REJECTED: " +:+ rejectReason;
       timestamp := t_ts |} h in
  (h', Some updatedClaim).

Definition handleNegotiate (negotiationAmount negotiationReason : string)
    (t_id t_ts : Z) : Handler := λ h,
  if falsy negotiationAmount || falsy negotiationReason then (h, None) else
  let amount := parseFloat negotiationAmount in
  let newEstimate :=
    {| totalCost := amount;
       laborCost := (amount * 0.6)%float;
       partsCost := (amount * 0.4)%float;
       details := negotiationReason;
       source := if isAgent then SourceInsuranceAgent else SourceRepairShop |} in
  let updatedClaim :=
    if isShop then with_repairShopEstimate newEstimate claim
    else if isAgent then with_agentEstimate newEstimate claim
    else claim in
  let h' := push (comments updatedClaim)
    {| comment_id := pretty t_id; authorRole := userRole;
       authorName := UserRole_value userRole;
       text := "Proposed new estimate: " +:+ formatCurrency amount
               +:+ ". Reason: " +:+ negotiationReason;
       timestamp := t_ts |} h in
  (h', Some updatedClaim).

Definition handleApproveEstimate : Handler := λ h,
  (h, Some (with_status Approved claim)).

End Handlers.

(** ** The view of [ClaimDetail]: which controls exist, and what they call *)

(** The contents of the input fields of [ClaimDetail]. *)
Record Form := {
  commentText : string;
  negotiationAmount : string;
  negotiationReason : string;
  rejectReason : string
}.

(** The buttons of [ClaimDetail] that call a handler, named after their
    labels. [SendComment] is also what the Enter key of the comment field
    triggers. *)
Inductive Control :=
  | ApproveEstimate
  | StartRepair
  | RepairCompleted
  | PickUpCompleted
  | DenyAndReject
  | SubmitAdjustment
  | SendComment.

(** The JSX condition under which each control is rendered. *)
Definition rendered (userRole : UserRole) (claim : Claim) (ctl : Control) : bool :=
  let isAgent := bool_decide (userRole = InsuranceAgent) in
  let isShop := bool_decide (userRole = RepairShop) in
  let isPolicyholder := bool_decide (userRole = Policyholder) in
  match ctl with
  | ApproveEstimate => isAgent && bool_decide (status claim = Estimated)
  | StartRepair => isShop && bool_decide (status claim = Approved)
  | RepairCompleted => isShop && bool_decide (status claim = InRepair)
  | PickUpCompleted => isPolicyholder && bool_decide (status claim = PickUpPending)
  | DenyAndReject =>
      isAgent && bool_decide (status claim ≠ Closed)
      && bool_decide (status claim ≠ Rejected)
  | SubmitAdjustment =>
      (isShop || isAgent) && bool_decide (status claim ≠ Closed)
      && bool_decide (status claim ≠ Rejected)
  | SendComment => true
  end.

(** The [disabled] attribute of each button; [loading] is false whenever an
    event can arrive, since [handleNegotiate] resets it before it returns. *)
Definition disabled (form : Form) (ctl : Control) : bool :=
  match ctl with
  | DenyAndReject => falsy (rejectReason form)
  | SubmitAdjustment =>
      falsy (negotiationAmount form) || falsy (negotiationReason form)
  | _ => false
  end.

(** The [onClick] of each button. *)
Definition onClick `{Platform} (ctl : Control) (claim : Claim) (userRole : UserRole)
    (form : Form) (t_id t_ts : Z) : Handler :=
  match ctl with
  | ApproveEstimate => handleApproveEstimate claim
  | StartRepair => handleStatusChange claim InRepair
  | RepairCompleted => handleStatusChange claim PickUpPending
  | PickUpCompleted => handleStatusChange claim Closed
  | DenyAndReject => handleRejectClaim claim (rejectReason form) t_id t_ts
  | SubmitAdjustment =>
      handleNegotiate claim userRole (negotiationAmount form)
        (negotiationReason form) t_id t_ts
  | SendComment => handleAddComment claim userRole (commentText form) t_id t_ts
  end.

(** A user acting on a control of the claim on display: the handler runs
    only if the control is rendered and enabled. *)
Definition click `{Platform} (ctl : Control) (claim : Claim) (userRole : UserRole)
    (form : Form) (t_id t_ts : Z) : Handler := λ h,
  if rendered userRole claim ctl && negb (disabled form ctl)
  then onClick ctl claim userRole form t_id t_ts h
  else (h, None).

(** Running a handler of [ClaimDetail] inside [App]: its [onUpdateClaim]
    call becomes a [setClaims] with [handleUpdateClaim]. *)
Definition run (handler : Handler) (s : AppState) : AppState :=
  let '(h', update) := handler (arrays s) in
  {| userRole := userRole s;
     claims := match update with
               | Some updatedClaim => handleUpdateClaim updatedClaim (claims s)
               | None => claims s
               end;
     selectedClaimId := selectedClaimId s;
     arrays := h';
     pending := pending s |}.

(** ** Claim intake ([handleCreateClaim]) *)

(** Step 1 of [handleCreateClaim], up to the first [await]: the base claim
    is put in front of the list and selected. The three [Date.now()]
    readings are [t_id], [t_created] and [t_updated]. *)
Definition baseClaim (data : CreateClaimData) (newId : string) (r : ref)
    (t_created t_updated : Z) : Claim :=
  {| claim_id := newId;
     policyNumber := data_policyNumber data;
     policyholderName := "Current User";
     vehicleModel := data_vehicleModel data;
     vehicleYear := data_vehicleYear data;
     accidentDetails := data_accidentDetails data;
     status := AIReview;
     damageImages := [];
     aiDamageAssessment := None; aiEstimate := None;
     aiConfidenceScore := None; suggestedShops := None;
     currentEstimate := None; repairShopEstimate := None;
     agentEstimate := None;
     comments := r;
     createdAt := t_created;
     updatedAt := t_updated |}.

Definition handleCreateClaim_start (data : CreateClaimData)
    (t_id t_created t_updated : Z) (s : AppState) : AppState :=
  let newId := pretty t_id in
  let '(r, h) := alloc [] (arrays s) in
  {| userRole := userRole s;
     claims := baseClaim data newId r t_created t_updated :: claims s;
     selectedClaimId := Some newId;
     arrays := h;
     pending := (newId, data) :: pending s |}.

(** Step 2: [Promise.all(data.images.map(async (file) => ...))], the base64
    payload of every image; it rejects as soon as one read does. *)
Definition processImages (env : Env) (files : list File) : option (list string) :=
  mapM (λ file, part ← fileToGenerativePart env file; Some (data part)) files.

(** The three awaited calls of the [try] block, each against the answers
    the outside world gives during that call; [None] when one of them
    throws. *)
Definition handleCreateClaim_try `{Platform} (env_images env_analysis env_shops : Env)
    (data : CreateClaimData)
    : option (list string * AnalysisResult * list RepairShopSuggestion) :=
  processedImages ← processImages env_images (images data);
  analysis ← analyzeDamage env_analysis (images data)
               (data_vehicleYear data +:+ " " +:+ data_vehicleModel data);
  let shops := findRepairShops env_shops (Some "Current Location") in
  Some (processedImages, analysis, shops).

(** What the final [setClaims] of [handleCreateClaim] does to one claim of
    the list: step 5 when the [try] block completed, the [catch] block
    otherwise. *)
Definition settle_claim (newId : string)
    (outcome : option (list string * AnalysisResult * list RepairShopSuggestion))
    (c : Claim) : Claim :=
  match outcome with
  | Some (processedImages, analysis, shops) =>
      if decide (claim_id c = newId)
      then with_ai_results processedImages (assessment analysis)
             (estimate analysis) shops c
      else c
  | None =>
      if decide (claim_id c = newId) then with_status Submitted c else c
  end.

(** The rest of [handleCreateClaim], run when its awaits have settled. *)
Definition handleCreateClaim_settle `{Platform} (env_images env_analysis env_shops : Env)
    (newId : string) (data : CreateClaimData) (s : AppState) : AppState :=
  let outcome := handleCreateClaim_try env_images env_analysis env_shops data in
  {| userRole := userRole s;
     claims := map (settle_claim newId outcome) (claims s);
     selectedClaimId := selectedClaimId s;
     arrays := arrays s;
     pending := pending s |}.

(** [handleSubmit] of [CreateClaimModal] calls [onSubmit] only with a policy
    number and at least one image. *)
Definition submittable (data : CreateClaimData) : bool :=
  negb (falsy (data_policyNumber data))
  && negb (bool_decide (length (images data) = 0%nat)).

(** ** The application as a transition system *)

Definition setUserRole (role : UserRole) (s : AppState) : AppState :=
  {| userRole := role; claims := claims s;
     selectedClaimId := selectedClaimId s;
     arrays := arrays s; pending := pending s |}.

Definition setSelectedClaimId (i : string) (s : AppState) : AppState :=
  {| userRole := userRole s; claims := claims s;
     selectedClaimId := Some i;
     arrays := arrays s; pending := pending s |}.

(** Bookkeeping of the suspended intakes once one of them has resumed. *)
Definition with_pending (rest : list (string * CreateClaimData)) (s : AppState)
    : AppState :=
  {| userRole := userRole s; claims := claims s;
     selectedClaimId := selectedClaimId s;
     arrays := arrays s; pending := rest |}.

(** [handleCreateClaim] from its first to its last statement, when no other
    event comes in between. *)
Definition handleCreateClaim `{Platform} (env_images env_analysis env_shops : Env)
    (data : CreateClaimData) (t_id t_created t_updated : Z) (s : AppState)
    : AppState :=
  with_pending (pending s)
    (handleCreateClaim_settle env_images env_analysis env_shops
       (pretty t_id) data
       (handleCreateClaim_start data t_id t_created t_updated s)).

(** One event of the running application: a switch of role, the selection of
    a listed claim, an action on a control of the claim on display, the
    submission of the new-claim form (the button is not rendered for the
    repair shop), or the settling of a suspended intake. *)
Inductive step `{Platform} : AppState → AppState → Prop :=
  | step_role s role :
      step s (setUserRole role s)
  | step_select s c :
      c ∈ claims s →
      step s (setSelectedClaimId (claim_id c) s)
  | step_click s claim ctl form t_id t_ts :
      selectedClaim s = Some claim →
      step s (run (click ctl claim (userRole s) form t_id t_ts) s)
  | step_submit s data t_id t_created t_updated :
      userRole s ≠ RepairShop →
      submittable data = true →
      step s (handleCreateClaim_start data t_id t_created t_updated s)
  | step_settle s newId data before after env_images env_analysis env_shops :
      pending s = before ++ (newId, data) :: after →
      step s (with_pending (before ++ after)
                (handleCreateClaim_settle env_images env_analysis env_shops
                   newId data s)).

(** The states the application can be in. *)
Definition reachable `{Platform} (s : AppState) : Prop :=
  ∃ t_comment t_created t_updated,
    rtc step (initial_state t_comment t_created t_updated) s.

(** ** The workflow as the specification words it *)

Module Spec.

(** Who acts, in the transition table of section 4.1. *)
Inductive Actor :=
  | SystemIntake
  | AIGateway
  | SystemFallback
  | Role (r : UserRole).

(** The intents of the transition table. *)
Inductive Intent :=
  | AIProcessingAccepted
  | AssessmentComplete
  | AIGatewayFailure
  | ApproveEstimate
  | VehicleReceived
  | RepairCompleted
  | PickupConfirmed
  | RejectWithReason.

(** Terminal statuses. *)
Definition terminal (st : ClaimStatus) : bool :=
  match st with
  | Closed | Rejected => true
  | _ => false
  end.

(** The transition table: the target status of a listed triple. *)
Definition transition (actor : Actor) (from : ClaimStatus) (intent : Intent)
    : option ClaimStatus :=
  match actor, from, intent with
  | SystemIntake, Submitted, AIProcessingAccepted => Some AIReview
  | AIGateway, AIReview, AssessmentComplete => Some Estimated
  | SystemFallback, AIReview, AIGatewayFailure => Some Submitted
  | Role InsuranceAgent, Estimated, ApproveEstimate => Some Approved
  | Role RepairShop, Approved, VehicleReceived => Some InRepair
  | Role RepairShop, InRepair, RepairCompleted => Some PickUpPending
  | Role Policyholder, PickUpPending, PickupConfirmed => Some Closed
  | Role InsuranceAgent, st, RejectWithReason =>
      if terminal st then None else Some Rejected
  | _, _, _ => None
  end.

(** The precedence rule of section 4.2 over the three estimate fields:
    agent estimate if present, otherwise repair-shop estimate if present,
    otherwise AI estimate. *)
Definition precedence (c : Claim) : option Estimate :=
  match agentEstimate c, repairShopEstimate c with
  | Some e, _ => Some e
  | None, Some e => Some e
  | None, None => aiEstimate c
  end.

End Spec.

(** The control through which the view offers an intent of the table to a
    user; the three system intents belong to [handleCreateClaim]. *)
Definition control_of (intent : Spec.Intent) : option Control :=
  match intent with
  | Spec.ApproveEstimate => Some ApproveEstimate
  | Spec.VehicleReceived => Some StartRepair
  | Spec.RepairCompleted => Some RepairCompleted
  | Spec.PickupConfirmed => Some PickUpCompleted
  | Spec.RejectWithReason => Some DenyAndReject
  | Spec.AIProcessingAccepted | Spec.AssessmentComplete
  | Spec.AIGatewayFailure => None
  end.

(** ** Predicates and functions used in the statements *)

(** The fields of a claim other than its status and its three negotiation
    estimates are the same in [c] and [c']; in particular both refer to the
    same comment array. *)
Definition same_record (c c' : Claim) : Prop :=
  claim_id c' = claim_id c ∧ policyNumber c' = policyNumber c
  ∧ policyholderName c' = policyholderName c
  ∧ vehicleModel c' = vehicleModel c ∧ vehicleYear c' = vehicleYear c
  ∧ accidentDetails c' = accidentDetails c
  ∧ damageImages c' = damageImages c
  ∧ aiDamageAssessment c' = aiDamageAssessment c
  ∧ aiEstimate c' = aiEstimate c
  ∧ aiConfidenceScore c' = aiConfidenceScore c
  ∧ suggestedShops c' = suggestedShops c
  ∧ comments c' = comments c
  ∧ createdAt c' = createdAt c ∧ updatedAt c' = updatedAt c.

(** One comment [x] was pushed on the array behind [r]; every other array
    is as before and none was allocated. *)
Definition pushed_one (h h' : Arrays) (r : ref) (x : Comment) : Prop :=
  deref h' r = deref h r ++ [x]
  ∧ length h' = length h
  ∧ ∀ r', r' ≠ r → h' !! r' = h !! r'.

(** The comment written by [handleRejectClaim]. *)
Definition rejection_comment (rejectReason : string) (t_id t_ts : Z) : Comment :=
  {| comment_id := pretty t_id; authorRole := InsuranceAgent;
     authorName := "Agent";
     text := "CLAIM REJECTED: " +:+ rejectReason;
     timestamp := t_ts |}.

(** The estimate field a role's proposal is stored in. *)
Definition stored_proposal (role : UserRole) (c : Claim) : option Estimate :=
  match role with
  | RepairShop => repairShopEstimate c
  | InsuranceAgent => agentEstimate c
  | Policyholder => None
  end.

(** The [source] tag of a role's proposal. *)
Definition source_of (role : UserRole) : EstimateSource :=
  match role with
  | InsuranceAgent => SourceInsuranceAgent
  | _ => SourceRepairShop
  end.

(** [labor + parts === total] on binary64 numbers, for the split of [t]. *)
Definition split_exact (t : float) : bool :=
  PrimFloat.eqb (t * 0.6 + t * 0.4)%float t.

(** The number a whole amount of [z] dollars is. *)
Definition dollars (z : Z) : float := of_uint63 (Uint63.of_Z z).

(** The split is exact for the [n] whole amounts from [z] on. *)
Fixpoint split_exact_from (n : nat) (z : Z) : bool :=
  match n with
  | O => true
  | S k => split_exact (dollars z) && split_exact_from k (z + 1)
  end.

(** The comment written by [handleAddComment]. *)
Definition user_comment (role : UserRole) (commentText : string) (t_id t_ts : Z)
    : Comment :=
  {| comment_id := pretty t_id; authorRole := role;
     authorName := UserRole_value role;
     text := commentText; timestamp := t_ts |}.

(** The call of the model in [analyzeDamage] fails: [generateContent]
    throws, or the text it returns is no JSON, so that [JSON.parse]
    throws. *)
Definition ai_call_fails `{Platform} (env : Env) (req : Request) : Prop :=
  generateContent env req = None
  ∨ ∃ response, generateContent env req = Some response
      ∧ JSON_parse (or_else (response_text response) "{}") = None.

(** The comments reference of a claim is live: it is below the number of
    arrays allocated so far. *)
Definition comments_live (h : Arrays) (c : Claim) : Prop :=
  (comments c < length h)%nat.

(** The rule by which the code writes [currentEstimate]: the agent's
    estimate if the claim has one, otherwise the AI estimate. The
    repair-shop estimate plays no part. *)
Definition current_is_agent_else_ai (c : Claim) : Prop :=
  currentEstimate c = match agentEstimate c with
                      | Some agent => Some agent
                      | None => aiEstimate c
                      end.

(** The event from [s] to [s'] is an intake that settles with its AI
    results on a claim which has an agent estimate already: the agent made
    a proposal on the new claim while its intake was suspended. *)
Definition settles_after_agent `{Platform} (s s' : AppState) : Prop :=
  ∃ newId data before after env_images env_analysis env_shops c,
    pending s = before ++ (newId, data) :: after
    ∧ s' = with_pending (before ++ after)
             (handleCreateClaim_settle env_images env_analysis env_shops
                newId data s)
    ∧ is_Some (handleCreateClaim_try env_images env_analysis env_shops data)
    ∧ c ∈ claims s ∧ claim_id c = newId ∧ is_Some (agentEstimate c).

(** The events of the application other than those. *)
Definition step_in_turn `{Platform} (s s' : AppState) : Prop :=
  step s s' ∧ ¬ settles_after_agent s s'.

(** The call of the model in [analyzeDamage] returns a response whose text
    parses to [null], on which the first property read throws. *)
Definition parses_to_null `{Platform} (env : Env) (req : Request) : Prop :=
  ∃ response, generateContent env req = Some response
    ∧ JSON_parse (or_else (response_text response) "{}") = Some JNull.

(** ** A concrete platform and environment, to evaluate the model *)

(** [parseFloat] on the amounts used below; anything else is not a number. *)
Definition sample_parseFloat (s : string) : float :=
  if decide (s = "1500") then 1500%float
  else if decide (s = "1800") then 1800%float
  else if decide (s = "0.11") then 0.11%float
  else nan.

(** The [en-US] / [USD] rendering of the same amounts, and of not-a-number. *)
Definition sample_formatCurrency (x : float) : string :=
  if PrimFloat.eqb x 1500 then "$1,500.00"
  else if PrimFloat.eqb x 1800 then "$1,800.00"
  else if PrimFloat.eqb x 0.11 then "$0.11"
  else "$NaN".

(** [trim] for strings whose only white space is the space character. *)
Fixpoint trim_left (s : string) : string :=
  match s with
  | String c rest => if Ascii.eqb c " "%char then trim_left rest else s
  | EmptyString => s
  end.

Definition sample_trim (s : string) : string :=
  String.rev (trim_left (String.rev (trim_left s))).

(** One well-formed model output, and its parse. *)
Definition sample_json : string :=
  let q := String "034"%char "" in
  "{" +:+ q +:+ "assessment" +:+ q +:+ ":" +:+ q +:+ "Dented bumper" +:+ q
  +:+ "," +:+ q +:+ "totalCost" +:+ q +:+ ":1000"
  +:+ "," +:+ q +:+ "laborCost" +:+ q +:+ ":600"
  +:+ "," +:+ q +:+ "partsCost" +:+ q +:+ ":400"
  +:+ "," +:+ q +:+ "repairDetails" +:+ q +:+ ":" +:+ q +:+ "Replace bumper" +:+ q
  +:+ "}".

(** [JSON.parse] on the texts that the examples below hand to it: the
    well-formed output, the empty object that [analyzeDamage] parses for a
    response without text, the empty array, [null], and texts that are no
    JSON. *)
Definition sample_JSON_parse (s : string) : option Json :=
  if decide (s = sample_json)
  then Some (JObject [ ("assessment", JString "Dented bumper");
                       ("totalCost", JNumber 1000);
                       ("laborCost", JNumber 600);
                       ("partsCost", JNumber 400);
                       ("repairDetails", JString "Replace bumper") ])
  else if decide (s = "{}") then Some (JObject [])
  else if decide (s = "[]") then Some (JArray [])
  else if decide (s = "null") then Some JNull
  else None.

Definition sample_platform : Platform :=
  {| trim := sample_trim;
     parseFloat := sample_parseFloat;
     formatCurrency := sample_formatCurrency;
     JSON_parse := sample_JSON_parse |}.

(** Every image reads as a small JPEG data URL. *)
Definition read_ok (f : File) : option string := Some "data:image/jpeg;base64,QUJD".

(** The model answers the analysis with [sample_json] and the shop search
    without grounding chunks. *)
Definition env_up : Env :=
  {| readAsDataURL := read_ok;
     generateContent := λ req,
       match config req with
       | JsonSchemaConfig =>
           Some {| response_text := Some sample_json; candidates := None |}
       | GoogleMapsConfig =>
           Some {| response_text := Some "Shops near you"; candidates := None |}
       end |}.

(** Images are readable, every call of the model throws. *)
Definition env_down : Env :=
  {| readAsDataURL := read_ok; generateContent := λ _, None |}.

(** The model answers the analysis with text that is no JSON. *)
Definition env_garbled : Env :=
  {| readAsDataURL := read_ok;
     generateContent := λ _,
       Some {| response_text := Some "Sorry, I cannot help with that.";
               candidates := None |} |}.

(** The model answers with a response that has no text. *)
Definition env_textless : Env :=
  {| readAsDataURL := read_ok;
     generateContent := λ _, Some {| response_text := None; candidates := None |} |}.

(** The model answers the analysis with the text [null]. *)
Definition env_null : Env :=
  {| readAsDataURL := read_ok;
     generateContent := λ _,
       Some {| response_text := Some "null"; candidates := None |} |}.

(** No image can be read. *)
Definition env_unreadable : Env :=
  {| readAsDataURL := λ _, None; generateContent := generateContent env_up |}.

(** The shop search returns one web chunk with a title and a URI, one with
    an empty title and one without [web]. *)
Definition env_grounded : Env :=
  {| readAsDataURL := read_ok;
     generateContent := λ _,
       Some {| response_text := Some "Shops near you";
               candidates := Some
                 [ {| groundingMetadata := Some
                        {| groundingChunks := Some
                             [ {| web := Some {| uri := Some "https://acme.example";
                                                 title := Some "Acme Body Shop" |} |};
                               {| web := Some {| uri := Some "https://void.example";
                                                 title := Some "" |} |};
                               {| web := None |} ] |} |} ] |} |}.

Definition sample_file : File := {| file_handle := 0; file_type := "image/jpeg" |}.

Definition sample_data : CreateClaimData :=
  {| data_policyNumber := "POL-1";
     data_vehicleModel := "Toyota Camry XLE";
     data_vehicleYear := "2022";
     data_accidentDetails := "Scraped a pillar while parking.";
     images := [ sample_file ] |}.

Definition sample_form : Form :=
  {| commentText := "Any update?";
     negotiationAmount := "1500";
     negotiationReason := "Found internal structural damage";
     rejectReason := "Fraud suspected" |}.

(** The state of the first render with all clock readings at [200000], and
    the claim it lists. *)
Definition state0 : AppState := initial_state 200000 200000 200000.
Definition claim0 : Claim := INITIAL_claim 200000 200000.

(** The repair shop selects the listed claim and proposes 1500. *)
Definition state_shop_proposed : AppState :=
  run (@click sample_platform SubmitAdjustment claim0 RepairShop sample_form
         300000 300001)
    (setSelectedClaimId (claim_id claim0) (setUserRole RepairShop state0)).

(** A policyholder submits [sample_data]; while the intake is suspended the
    insurance agent proposes 1800 on the new claim (or rejects it); then the
    intake settles with the model up. *)
Definition agent_form : Form :=
  {| commentText := "";
     negotiationAmount := "1800";
     negotiationReason := "Agreed after inspection";
     rejectReason := "Fraud suspected" |}.

Definition state_intake_started : AppState :=
  setUserRole InsuranceAgent
    (handleCreateClaim_start sample_data 300000 300001 300002 state0).

Definition claim_intake_started : Claim :=
  baseClaim sample_data "300000" 1 300001 300002.

Definition state_early_proposal : AppState :=
  with_pending []
    (@handleCreateClaim_settle sample_platform env_up env_up env_up
       "300000" sample_data
       (run (@click sample_platform SubmitAdjustment claim_intake_started
               InsuranceAgent agent_form 300010 300011)
          state_intake_started)).

Definition state_early_rejection : AppState :=
  with_pending []
    (@handleCreateClaim_settle sample_platform env_up env_up env_up
       "300000" sample_data
       (run (@click sample_platform DenyAndReject claim_intake_started
               InsuranceAgent agent_form 300010 300011)
          state_intake_started)).

(** ** The rest of the view and of the service *)

(** [s.split(sep)] for a separator of one character. *)
Fixpoint split_char (sep : ascii) (s : string) : list string :=
  match s with
  | EmptyString => [""]
  | String c rest =>
      if Ascii.eqb c sep then "" :: split_char sep rest
      else match split_char sep rest with
           | piece :: pieces => String c piece :: pieces
           | [] => [String c ""]
           end
  end.

(** The character [sep] occurs in [s]. *)
Fixpoint has_char (sep : ascii) (s : string) : bool :=
  match s with
  | EmptyString => false
  | String c rest => Ascii.eqb c sep || has_char sep rest
  end.

(** [s.includes(sub)]. *)
Fixpoint includes (s sub : string) : bool :=
  String.prefix sub s
  || match s with
     | String _ rest => includes rest sub
     | EmptyString => false
     end.

(** [filteredClaims] of [App]: the claims the sidebar lists for a search
    query. [toLowerCase] is the platform's. *)
Definition filteredClaims (toLowerCase : string → string) (searchQuery : string)
    (claims : list Claim) : list Claim :=
  List.filter
    (λ c, includes (toLowerCase (policyNumber c)) (toLowerCase searchQuery)
          || includes (claim_id c) searchQuery)
    claims.

(** The heading of [ClaimDetail]:
    [Claim #{claim.policyNumber.split('-')[1] || claim.id}]. *)
Definition claimTitle (claim : Claim) : string :=
  "Claim #"
  +:+ or_else (split_char "-"%char (policyNumber claim) !! 1%nat) (claim_id claim).

(** [renderEstimateCard]: no card for a missing estimate. *)
Record EstimateCard := {
  card_title : string;
  card_estimate : Estimate;
  card_active : bool
}.

Definition renderEstimateCard (est : option Estimate) (title : string)
    (isActive : bool) : option EstimateCard :=
  e ← est;
  Some {| card_title := title; card_estimate := e; card_active := isActive |}.

(** [!!x] on a possibly missing estimate. *)
Definition present (x : option Estimate) : bool :=
  match x with Some _ => true | None => false end.

(** The three cards of the estimates section, in the order of the JSX. *)
Definition estimateCards (claim : Claim) : list EstimateCard :=
  omap (λ card, card)
    [ renderEstimateCard (aiEstimate claim) "AI Initial Estimate"
        (negb (present (repairShopEstimate claim))
         && negb (present (agentEstimate claim)));
      renderEstimateCard (repairShopEstimate claim) "Repair Shop Estimate"
        (present (repairShopEstimate claim)
         && (negb (present (agentEstimate claim))
             || match agentEstimate claim with
                | Some agent =>
                    match source agent with
                    | SourceInsuranceAgent => false
                    | _ => true
                    end
                | None => true
                end));
      renderEstimateCard (agentEstimate claim) "Agent Final Estimate"
        (present (agentEstimate claim)) ].

(** The estimates of the highlighted cards. *)
Definition highlighted (claim : Claim) : list Estimate :=
  card_estimate <$> List.filter card_active (estimateCards claim).

(** The four sign-off buttons of [renderConfirmationActions]. *)
Definition signOffs : list Control :=
  [ ApproveEstimate; StartRepair; RepairCompleted; PickUpCompleted ].

(** The condition of the line "No pending actions for you at this stage." *)
Definition noPendingActions (userRole : UserRole) (claim : Claim) : bool :=
  let isAgent := bool_decide (userRole = InsuranceAgent) in
  let isShop := bool_decide (userRole = RepairShop) in
  let isPolicyholder := bool_decide (userRole = Policyholder) in
  negb ((isAgent && bool_decide (status claim = Estimated))
        || (isShop && bool_decide (status claim ∈ [Approved; InRepair]))
        || (isPolicyholder && bool_decide (status claim = PickUpPending))).

(** The body of the AI assessment panel: a spinner while the status is
    [Submitted], otherwise a paragraph whose child is
    [claim.aiDamageAssessment || "Assessment pending..."]. *)
Inductive AssessmentPanel := Analyzing | AssessmentText (child : JsValue).

Definition assessmentPanel (claim : Claim) : AssessmentPanel :=
  if bool_decide (status claim = Submitted) then Analyzing
  else AssessmentText (js_or (aiDamageAssessment claim) "Assessment pending...").

(** The suggested-shops panel: rendered for the policyholder when the claim
    has a non-empty list of shops. *)
Definition shopsPanel (userRole : UserRole) (claim : Claim)
    : option (list RepairShopSuggestion) :=
  if bool_decide (userRole = Policyholder)
  then match suggestedShops claim with
       | Some (shop :: shops) => Some (shop :: shops)
       | _ => None
       end
  else None.

(** [judgeEstimate]. [numberToString] is the conversion a template literal
    applies to a value, and [generate prompt] is the answer to
    [generateContent({ model: "gemini-2.5-flash", contents: prompt })],
    [None] when the call throws. *)
Definition judge_prompt (numberToString : JsValue → string)
    (currentEstimate : Estimate) (newAmount : float) (justification : string)
    : string :=
  "
        Act as a senior insurance adjuster judge.
        Original Estimate: $" +:+ numberToString (totalCost currentEstimate) +:+ ".
        Proposed New Estimate: $" +:+ numberToString newAmount +:+ ".
        Justification: " +:+ justification +:+ ".
        
        Is this increase reasonable? Provide a short 1 sentence verdict.
        ".

Definition judgeEstimate (numberToString : JsValue → string)
    (generate : string → option Response)
    (currentEstimate : Estimate) (newAmount : float) (justification : string)
    : string :=
  match generate (judge_prompt numberToString currentEstimate newAmount
                    justification) with
  | Some response => or_else (response_text response) "Review pending."
  | None => "Manual review required."
  end.

(** Each stored estimate carries the source of the field it is stored in,
    and the current estimate is the AI's or the agent's. *)
Definition sources_match (c : Claim) : Prop :=
  (∀ e, aiEstimate c = Some e → source e = SourceAI)
  ∧ (∀ e, repairShopEstimate c = Some e → source e = SourceRepairShop)
  ∧ (∀ e, agentEstimate c = Some e → source e = SourceInsuranceAgent)
  ∧ (∀ e, currentEstimate c = Some e →
       source e = SourceAI ∨ source e = SourceInsuranceAgent).

(** Every array of [h] is still there in [h'], with at most more comments
    at its end. *)
Definition arrays_grow (h h' : Arrays) : Prop :=
  ∀ r arr, h !! r = Some arr → ∃ arr', h' !! r = Some arr' ∧ arr `prefix_of` arr'.

(** Claims with different ids refer to different comment arrays. *)
Definition threads_apart (l : list Claim) : Prop :=
  ∀ c1 c2, c1 ∈ l → c2 ∈ l → claim_id c1 ≠ claim_id c2 → comments c1 ≠ comments c2.

(** [toLowerCase] on the letters A to Z. *)
Definition lower_ascii (c : ascii) : ascii :=
  let n := nat_of_ascii c in
  if (65 <=? n)%nat && (n <=? 90)%nat then ascii_of_nat (n + 32) else c.

Fixpoint sample_toLowerCase (s : string) : string :=
  match s with
  | EmptyString => EmptyString
  | String c rest => String (lower_ascii c) (sample_toLowerCase rest)
  end.

(** The conversion of a template literal, on the amounts used below and on
    the values that are no numbers. *)
Definition sample_numberToString (v : JsValue) : string :=
  match v with
  | None => "undefined"
  | Some JNull => "null"
  | Some (JBool b) => if b then "true" else "false"
  | Some (JString s) => s
  | Some (JNumber x) =>
      if PrimFloat.eqb x 1200 then "1200"
      else if PrimFloat.eqb x 1500 then "1500"
      else "NaN"
  | Some (JArray _) => ""
  | Some (JObject _) => "[object Object]"
  end.

(** Case analysis on the guards of a handler that has published an update. *)
Ltac handler_cases Hrun :=
  unfold handleApproveEstimate, handleStatusChange, handleRejectClaim,
    handleNegotiate, handleAddComment, alloc in Hrun;
  repeat match type of Hrun with
         | context [if ?b then _ else _] => destruct b
         end;
  simplify_eq/=.

(** ** Reading and writing comment arrays *)

Lemma deref_push_same (h : Arrays) (r : ref) (x : Comment) :
  (r < length h)%nat → deref (push r x h) r = deref h r ++ [x].
Proof.
  intros Hr. unfold deref, push.
  rewrite list_lookup_alter_eq.
  destruct (lookup_lt_is_Some_2 h r Hr) as [arr ->]. reflexivity.
Qed.

Lemma lookup_push_other (h : Arrays) (r r' : ref) (x : Comment) :
  r ≠ r' → push r x h !! r' = h !! r'.
Proof. intros Hne. unfold push. by rewrite list_lookup_alter_ne. Qed.

Lemma length_push (h : Arrays) (r : ref) (x : Comment) :
  length (push r x h) = length h.
Proof. unfold push. by rewrite length_alter. Qed.

Lemma deref_alloc_new (h : Arrays) (arr : list Comment) :
  deref (alloc arr h).2 (alloc arr h).1 = arr.
Proof.
  unfold deref, alloc; simpl.
  by rewrite lookup_app_r, Nat.sub_diag.
Qed.

Lemma lookup_alloc_old (h : Arrays) (arr : list Comment) (r : ref) :
  (r < length h)%nat → (alloc arr h).2 !! r = h !! r.
Proof. intros Hr. unfold alloc; simpl. by rewrite lookup_app_l. Qed.

(** [handleAddComment] works on a copy: the update refers to a new array,
    and the array of the claim it was made from keeps its contents. *)
Lemma handleAddComment_copies `{Platform} claim role commentText t_id t_ts
    (h h' : Arrays) updated :
  comments_live h claim →
  handleAddComment claim role commentText t_id t_ts h = (h', Some updated) →
  comments updated = length h
  ∧ h' !! comments claim = h !! comments claim
  ∧ deref h' (comments updated)
    = deref h (comments claim) ++ [user_comment role commentText t_id t_ts].
Proof.
  intros Hr Hrun. unfold handleAddComment in Hrun.
  destruct (falsy (trim commentText)); [discriminate|].
  injection Hrun as <- <-. split; [reflexivity|]. split.
  - by apply lookup_alloc_old.
  - apply deref_alloc_new.
Qed.

Lemma same_record_refl (c : Claim) : same_record c c.
Proof. by repeat split. Qed.

Lemma push_pushed_one (h : Arrays) (r : ref) (x : Comment) :
  (r < length h)%nat → pushed_one h (push r x h) r x.
Proof.
  intros Hr. repeat split.
  - by apply deref_push_same.
  - apply length_push.
  - intros r' Hne. by apply lookup_push_other.
Qed.

Lemma falsy_true (s : string) : falsy s = true ↔ s = "".
Proof. unfold falsy. apply bool_decide_eq_true. Qed.

Lemma falsy_false (s : string) : falsy s = false ↔ s ≠ "".
Proof. unfold falsy. apply bool_decide_eq_false. Qed.

(** ** Rejection *)

(** C4. A rejection with an empty reason changes nothing and publishes no
    update. With a non-empty reason the handler publishes exactly one
    update, in which the status is [Rejected], every other field is that of
    the claim, and the claim's comment array has grown by exactly one
    comment, authored as Insurance Agent, whose text is the reason prefixed
    with "CLAIM REJECTED: ". So the status change and the comment come
    together or not at all. *)
Theorem handleRejectClaim_both_or_neither
    (claim : Claim) (rejectReason : string) (t_id t_ts : Z) (h : Arrays) :
  comments_live h claim →
  (rejectReason = "" →
     handleRejectClaim claim rejectReason t_id t_ts h = (h, None))
  ∧ (rejectReason ≠ "" →
     ∃ h' updated,
       handleRejectClaim claim rejectReason t_id t_ts h = (h', Some updated)
       ∧ status updated = Rejected
       ∧ same_record claim updated
       ∧ currentEstimate updated = currentEstimate claim
       ∧ repairShopEstimate updated = repairShopEstimate claim
       ∧ agentEstimate updated = agentEstimate claim
       ∧ pushed_one h h' (comments claim)
           (rejection_comment rejectReason t_id t_ts)
       ∧ authorRole (rejection_comment rejectReason t_id t_ts) = InsuranceAgent
       ∧ text (rejection_comment rejectReason t_id t_ts)
         = "CLAIM REJECTED: " +:+ rejectReason).
Proof.
  intros Hr. unfold handleRejectClaim. split.
  - intros ->. reflexivity.
  - intros Hne. apply falsy_false in Hne. rewrite Hne.
    eexists _, _. split; [reflexivity|].
    repeat split; try reflexivity.
    + by apply deref_push_same.
    + apply length_push.
    + intros r' Hr'. by apply lookup_push_other.
Qed.

Lemma handleRejectClaim_both_or_neither_witness :
  comments_live (arrays state0) claim0
  ∧ ∃ h' updated,
      handleRejectClaim claim0 "Fraud suspected" 300000 300001 (arrays state0)
      = (h', Some updated)
      ∧ status updated = Rejected
      ∧ last (deref h' (comments updated))
        = Some (rejection_comment "Fraud suspected" 300000 300001).
Proof.
  assert (Hr : comments_live (arrays state0) claim0) by (vm_compute; lia).
  split; [exact Hr|].
  destruct (handleRejectClaim_both_or_neither claim0 "Fraud suspected"
              300000 300001 (arrays state0) Hr) as [_ Hsome].
  destruct Hsome as (h' & updated & Hrun & Hst & Hsame & _ & _ & _ & Hpush & _);
    [discriminate|].
  exists h', updated. split; [exact Hrun|]. split; [exact Hst|].
  destruct Hsame as (_ & _ & _ & _ & _ & _ & _ & _ & _ & _ & _ & Hc & _).
  destruct Hpush as (Hd & _). rewrite Hc, Hd. apply last_snoc.
Defined.

(** ** Estimate negotiation *)

(** C8. A proposal with a non-empty amount and a non-empty justification,
    made as Repair Shop or as Insurance Agent, publishes one update. A
    Repair Shop proposal is stored in [repairShopEstimate] and
    [currentEstimate] and [agentEstimate] keep their values; an Insurance
    Agent proposal is stored in [agentEstimate] and in [currentEstimate] and
    [repairShopEstimate] keeps its value. In both cases the claim's comment
    array grows by exactly one comment, "Proposed new estimate: <formatted
    amount>. Reason: <justification>", authored by the proposing role, and
    the status and every other field are unchanged. *)
Theorem handleNegotiate_routes_by_role `{Platform}
    (claim : Claim) (role : UserRole) (negotiationAmount negotiationReason : string)
    (t_id t_ts : Z) (h : Arrays) :
  role = RepairShop ∨ role = InsuranceAgent →
  negotiationAmount ≠ "" →
  negotiationReason ≠ "" →
  comments_live h claim →
  ∃ h' updated e cmt,
    handleNegotiate claim role negotiationAmount negotiationReason t_id t_ts h
    = (h', Some updated)
    ∧ totalCost e = parseFloat negotiationAmount
    ∧ details e = negotiationReason
    ∧ source e = source_of role
    ∧ (role = RepairShop →
         repairShopEstimate updated = Some e
         ∧ currentEstimate updated = currentEstimate claim
         ∧ agentEstimate updated = agentEstimate claim)
    ∧ (role = InsuranceAgent →
         agentEstimate updated = Some e
         ∧ currentEstimate updated = Some e
         ∧ repairShopEstimate updated = repairShopEstimate claim)
    ∧ status updated = status claim
    ∧ same_record claim updated
    ∧ pushed_one h h' (comments claim) cmt
    ∧ text cmt = "Proposed new estimate: "
                 +:+ formatCurrency (parseFloat negotiationAmount)
                 +:+ ". Reason: " +:+ negotiationReason
    ∧ authorRole cmt = role
    ∧ authorName cmt = UserRole_value role.
Proof.
  intros Hrole Ha Hj Hr. unfold handleNegotiate.
  apply falsy_false in Ha, Hj. rewrite Ha, Hj. simpl.
  set (amount := parseFloat negotiationAmount).
  set (e := {| totalCost := amount; laborCost := (amount * 0.6)%float;
               partsCost := (amount * 0.4)%float; details := negotiationReason;
               source := source_of role |}).
  set (cmt := {| comment_id := pretty t_id; authorRole := role;
                 authorName := UserRole_value role;
                 text := "Proposed new estimate: " +:+ formatCurrency amount
                         +:+ ". Reason: " +:+ negotiationReason;
                 timestamp := t_ts |}).
  assert (Hpush : pushed_one h (push (comments claim) cmt h) (comments claim) cmt)
    by (by apply push_pushed_one).
  destruct Hrole as [-> | ->]; simpl.
  - exists (push (comments claim) cmt h), (with_repairShopEstimate e claim), e, cmt.
    split; [reflexivity|].
    repeat match goal with |- _ ∧ _ => split end; try reflexivity.
    + intros _. by repeat split.
    + intros ?; discriminate.
    + by repeat split.
    + exact Hpush.
  - exists (push (comments claim) cmt h), (with_agentEstimate e claim), e, cmt.
    split; [reflexivity|].
    repeat match goal with |- _ ∧ _ => split end; try reflexivity.
    + intros ?; discriminate.
    + intros _. by repeat split.
    + by repeat split.
    + exact Hpush.
Qed.

Lemma handleNegotiate_routes_by_role_witness :
  ∃ h' updated e,
    @handleNegotiate sample_platform claim0 RepairShop "1500"
      "Found internal structural damage" 300000 300001 (arrays state0)
    = (h', Some updated)
    ∧ repairShopEstimate updated = Some e
    ∧ currentEstimate updated = currentEstimate claim0
    ∧ length (deref h' (comments claim0)) = 2%nat.
Proof.
  destruct (@handleNegotiate_routes_by_role sample_platform claim0 RepairShop
              "1500" "Found internal structural damage" 300000 300001
              (arrays state0))
    as (h' & updated & e & cmt & Hrun & _ & _ & _ & Hshop & _ & _ & _ & Hpush & _).
  - left; reflexivity.
  - discriminate.
  - discriminate.
  - vm_compute; lia.
  - destruct (Hshop eq_refl) as (Hs & Hc & _).
    exists h', updated, e. split; [exact Hrun|]. split; [exact Hs|].
    split; [exact Hc|].
    destruct Hpush as (Hd & _). rewrite Hd, length_app. reflexivity.
Defined.

(** ** The cost split *)

Lemma split_exact_from_spec (n : nat) :
  ∀ z, split_exact_from n z = true →
  ∀ k, z ≤ k < z + Z.of_nat n → split_exact (dollars k) = true.
Proof.
  induction n as [|n IH]; intros z Hall k Hk; [lia|].
  simpl in Hall. apply andb_prop in Hall as [Hz Hrest].
  destruct (decide (k = z)) as [->|Hne]; [exact Hz|].
  apply (IH (z + 1)); [exact Hrest|lia].
Qed.

Lemma split_exact_whole_dollars (k : Z) :
  0 ≤ k ≤ 1000000 → split_exact (dollars k) = true.
Proof.
  intros Hk.
  apply (split_exact_from_spec (Z.to_nat 1000001) 0); [|lia].
  vm_compute. reflexivity.
Qed.

(** C7, as the code has it. A published proposal of amount [t] stores an
    estimate whose total is [t], whose labor cost is the binary64 product
    [t * 0.6] and whose parts cost is the binary64 product [t * 0.4].
    Their binary64 sum is the total for every whole amount from 0 to
    1000000 dollars; it is not for every amount. *)
Theorem handleNegotiate_split `{Platform}
    (claim : Claim) (role : UserRole) (negotiationAmount negotiationReason : string)
    (t_id t_ts : Z) (h h' : Arrays) (updated : Claim) :
  role = RepairShop ∨ role = InsuranceAgent →
  handleNegotiate claim role negotiationAmount negotiationReason t_id t_ts h
  = (h', Some updated) →
  ∃ e, stored_proposal role updated = Some e
    ∧ totalCost e = parseFloat negotiationAmount
    ∧ laborCost e = (parseFloat negotiationAmount * 0.6)%float
    ∧ partsCost e = (parseFloat negotiationAmount * 0.4)%float
    ∧ ∀ k, 0 ≤ k ≤ 1000000 → parseFloat negotiationAmount = dollars k →
        PrimFloat.eqb (number (laborCost e) + number (partsCost e))%float
          (number (totalCost e)) = true.
Proof.
  intros Hrole Hrun. unfold handleNegotiate in Hrun.
  destruct (falsy negotiationAmount || falsy negotiationReason); [discriminate|].
  injection Hrun as _ <-.
  destruct Hrole as [-> | ->]; simpl;
    (eexists; split; [reflexivity|]; simpl; repeat split;
     intros k Hk ->; by apply split_exact_whole_dollars).
Qed.

Lemma handleNegotiate_split_witness :
  ∃ h' updated e,
    @handleNegotiate sample_platform claim0 InsuranceAgent "1800"
      "Agreed after inspection" 300000 300001 (arrays state0) = (h', Some updated)
    ∧ agentEstimate updated = Some e
    ∧ totalCost e = 1800%float
    ∧ laborCost e = 1080%float
    ∧ partsCost e = 720%float
    ∧ PrimFloat.eqb (number (laborCost e) + number (partsCost e))%float
          (number (totalCost e)) = true.
Proof.
  destruct (@handleNegotiate sample_platform claim0 InsuranceAgent "1800"
              "Agreed after inspection" 300000 300001 (arrays state0))
    as [h' [updated|]] eqn:Hrun; [|vm_compute in Hrun; discriminate].
  destruct (@handleNegotiate_split sample_platform claim0 InsuranceAgent
              "1800" "Agreed after inspection" 300000 300001 (arrays state0)
              h' updated (or_intror eq_refl) Hrun)
    as (e & He & Ht & Hl & Hp & Hsum).
  exists h', updated, e. split; [reflexivity|]. split; [exact He|].
  split; [exact Ht|]. split; [rewrite Hl; vm_compute; reflexivity|].
  split; [rewrite Hp; vm_compute; reflexivity|].
  apply (Hsum 1800); [lia|]. vm_compute. reflexivity.
Defined.

(** C7 as stated fails: the proposal of 0.11 stores a labor cost and a parts
    cost whose sum is not the total. *)
Lemma handleNegotiate_split_not_exact :
  ∃ h' updated e,
    @handleNegotiate sample_platform claim0 RepairShop "0.11"
      "Touch-up paint" 300000 300001 (arrays state0) = (h', Some updated)
    ∧ repairShopEstimate updated = Some e
    ∧ totalCost e = 0.11%float
    ∧ (number (laborCost e) + number (partsCost e))%float
      = 0.11000000000000001%float
    ∧ PrimFloat.eqb (number (laborCost e) + number (partsCost e))%float
          (number (totalCost e)) = false.
Proof.
  eexists _, _, _. split; [vm_compute; reflexivity|].
  split; [reflexivity|]. vm_compute. by repeat split.
Qed.

(** ** Status transitions and the view *)

Lemma run_no_update (handler : Handler) (s : AppState) :
  handler (arrays s) = (arrays s, None) → run handler s = s.
Proof. intros Hh. unfold run. rewrite Hh. by destruct s. Qed.

Lemma click_not_rendered `{Platform} ctl claim role form t_id t_ts h :
  rendered role claim ctl = false →
  click ctl claim role form t_id t_ts h = (h, None).
Proof. intros Hr. unfold click. by rewrite Hr. Qed.

(** A control that stands for an intent of the table is rendered only for a
    role and a status that the table lists with that intent. *)
Lemma rendered_in_table role claim intent ctl :
  control_of intent = Some ctl →
  Spec.transition (Spec.Role role) (status claim) intent = None →
  rendered role claim ctl = false.
Proof.
  intros Hctl Hnone. unfold rendered.
  destruct intent; simplify_eq/=;
    destruct role, (status claim); simplify_eq/=; reflexivity.
Qed.

(** The status an update carries when a control's handler publishes one. *)
Lemma onClick_status `{Platform} ctl claim role form t_id t_ts h h' updated :
  onClick ctl claim role form t_id t_ts h = (h', Some updated) →
  status updated =
    match ctl with
    | ApproveEstimate => Approved
    | StartRepair => InRepair
    | RepairCompleted => PickUpPending
    | PickUpCompleted => Closed
    | DenyAndReject => Rejected
    | SubmitAdjustment | SendComment => status claim
    end.
Proof.
  intros Hrun. destruct ctl; simpl in Hrun; handler_cases Hrun; reflexivity.
Qed.

(** C1, as the code has it. The handlers validate nothing; it is the view
    that keeps to the transition table. For a role, a status and an intent
    that the table does not list together, the control of that intent is
    not rendered: acting on it calls no handler, and leaves the comment
    arrays and the whole application state as they were. Conversely, when an
    action on a control publishes an update with another status, the table
    lists the role, the old status and the control's intent with the new
    status as target. *)
Theorem view_keeps_to_transition_table `{Platform}
    (role : UserRole) (claim : Claim) (ctl : Control) (form : Form)
    (t_id t_ts : Z) (s : AppState) :
  (∀ intent,
     control_of intent = Some ctl →
     Spec.transition (Spec.Role role) (status claim) intent = None →
     click ctl claim role form t_id t_ts (arrays s) = (arrays s, None)
     ∧ run (click ctl claim role form t_id t_ts) s = s)
  ∧ (∀ h' updated,
     click ctl claim role form t_id t_ts (arrays s) = (h', Some updated) →
     status updated ≠ status claim →
     ∃ intent,
       control_of intent = Some ctl
       ∧ Spec.transition (Spec.Role role) (status claim) intent
         = Some (status updated)).
Proof.
  split.
  - intros intent Hctl Hnone.
    assert (Hnoop : click ctl claim role form t_id t_ts (arrays s)
                    = (arrays s, None))
      by (apply click_not_rendered; by eapply rendered_in_table).
    split; [exact Hnoop|]. by apply run_no_update.
  - intros h' updated Hclick Hchanged. unfold click in Hclick.
    destruct (rendered role claim ctl) eqn:Hrendered; [|discriminate].
    destruct (disabled form ctl); [discriminate|]. simpl in Hclick.
    apply onClick_status in Hclick. rewrite Hclick in *.
    unfold rendered in Hrendered.
    destruct ctl; try done.
    + exists Spec.ApproveEstimate.
      destruct role, (status claim); simplify_eq/=; done.
    + exists Spec.VehicleReceived.
      destruct role, (status claim); simplify_eq/=; done.
    + exists Spec.RepairCompleted.
      destruct role, (status claim); simplify_eq/=; done.
    + exists Spec.PickupConfirmed.
      destruct role, (status claim); simplify_eq/=; done.
    + exists Spec.RejectWithReason.
      destruct role, (status claim); simplify_eq/=; done.
Qed.

(** The policyholder has no control to close an estimated claim, and the
    repair shop's start of repair follows the table. *)
Lemma view_keeps_to_transition_table_witness :
  (Spec.transition (Spec.Role Policyholder) (status claim0) Spec.PickupConfirmed
   = None
   ∧ run (@click sample_platform PickUpCompleted claim0 Policyholder
            sample_form 300000 300001) state0 = state0)
  ∧ Spec.transition (Spec.Role RepairShop) Approved Spec.VehicleReceived
    = Some InRepair.
Proof.
  pose proof (@view_keeps_to_transition_table sample_platform Policyholder
                claim0 PickUpCompleted sample_form 300000 300001 state0)
    as [Hnoop _].
  pose proof (@view_keeps_to_transition_table sample_platform RepairShop
                (with_status Approved claim0) StartRepair sample_form
                300000 300001 state0)
    as [_ Hrow].
  split.
  - split; [reflexivity|].
    apply (Hnoop Spec.PickupConfirmed); reflexivity.
  - destruct (Hrow (arrays state0) (with_status InRepair claim0))
      as (intent & Hctl & Htr); [reflexivity|discriminate|].
    destruct intent; try discriminate Hctl. exact Htr.
Defined.

(** C1 as stated fails on the handler: asked, on behalf of the policyholder,
    to close a claim that is [Estimated], a triple the table does not list,
    [handleStatusChange] publishes the claim with status [Closed]. *)
Lemma handleStatusChange_validates_nothing :
  Spec.transition (Spec.Role Policyholder) (status claim0) Spec.PickupConfirmed
  = None
  ∧ @onClick sample_platform PickUpCompleted claim0 Policyholder sample_form
      300000 300001
    = handleStatusChange claim0 Closed
  ∧ ∃ updated,
      handleStatusChange claim0 Closed (arrays state0)
      = (arrays state0, Some updated)
      ∧ status claim0 = Estimated
      ∧ status updated = Closed.
Proof.
  split; [reflexivity|]. split; [reflexivity|].
  eexists. split; [reflexivity|]. split; reflexivity.
Qed.

(** ** Terminal claims *)

Lemma rendered_terminal role claim ctl :
  Spec.terminal (status claim) = true →
  ctl ≠ SendComment →
  rendered role claim ctl = false.
Proof.
  intros Hterm Hctl. unfold rendered.
  destruct ctl; try done;
    destruct role, (status claim); simplify_eq/=; reflexivity.
Qed.

(** C2, as the code has it. For a claim that is [Closed] or [Rejected] the
    view renders no control for a status transition, a rejection or an
    estimate proposal: acting on any control but the comment box calls no
    handler and leaves the application state as it was. The comment box
    stays: a comment that is not blank is appended to the claim's comments
    and the status is kept. No error value is involved. *)
Theorem terminal_claim_offers_only_comments `{Platform}
    (role : UserRole) (claim : Claim) (ctl : Control) (form : Form)
    (t_id t_ts : Z) (s : AppState) :
  Spec.terminal (status claim) = true →
  (ctl ≠ SendComment →
     click ctl claim role form t_id t_ts (arrays s) = (arrays s, None)
     ∧ run (click ctl claim role form t_id t_ts) s = s)
  ∧ (trim (commentText form) ≠ "" →
     ∃ h' updated,
       click SendComment claim role form t_id t_ts (arrays s)
       = (h', Some updated)
       ∧ status updated = status claim
       ∧ deref h' (comments updated)
         = deref (arrays s) (comments claim)
           ++ [user_comment role (commentText form) t_id t_ts]).
Proof.
  intros Hterm. split.
  - intros Hctl.
    assert (Hnoop : click ctl claim role form t_id t_ts (arrays s)
                    = (arrays s, None))
      by (apply click_not_rendered; by apply rendered_terminal).
    split; [exact Hnoop|]. by apply run_no_update.
  - intros Htext. apply falsy_false in Htext.
    unfold click, handleAddComment; simpl.
    unfold handleAddComment. rewrite Htext.
    eexists _, _. split; [reflexivity|]. split; [reflexivity|].
    simpl. apply deref_alloc_new.
Qed.

Lemma terminal_claim_offers_only_comments_witness :
  let closed := with_status Closed claim0 in
  Spec.terminal (status closed) = true
  ∧ run (@click sample_platform DenyAndReject closed InsuranceAgent
           sample_form 300000 300001) state0 = state0
  ∧ run (@click sample_platform SubmitAdjustment closed RepairShop
           sample_form 300000 300001) state0 = state0
  ∧ ∃ h' updated,
      @click sample_platform SendComment closed Policyholder sample_form
        300000 300001 (arrays state0) = (h', Some updated)
      ∧ status updated = Closed
      ∧ map text (deref h' (comments updated))
        = ["Happened yesterday around 5pm."; "Any update?"].
Proof.
  intros closed.
  assert (Hterm : Spec.terminal (status closed) = true) by reflexivity.
  split; [exact Hterm|].
  split.
  { apply (@terminal_claim_offers_only_comments sample_platform InsuranceAgent
             closed DenyAndReject sample_form 300000 300001 state0 Hterm).
    discriminate. }
  split.
  { apply (@terminal_claim_offers_only_comments sample_platform RepairShop
             closed SubmitAdjustment sample_form 300000 300001 state0 Hterm).
    discriminate. }
  destruct (@terminal_claim_offers_only_comments sample_platform Policyholder
              closed SendComment sample_form 300000 300001 state0 Hterm)
    as [_ Hcomment].
  destruct Hcomment as (h' & updated & Hrun & Hst & Hd);
    [vm_compute; discriminate|].
  exists h', updated. split; [exact Hrun|]. split; [exact Hst|].
  rewrite Hd. reflexivity.
Defined.

(** C2 as stated fails on the handler: [handleRejectClaim] has no check of
    the status. Called again on the claim it has just rejected it publishes
    another update and pushes a second rejection comment. *)
Lemma handleRejectClaim_twice :
  ∃ h1 rejected h2 again,
    handleRejectClaim claim0 "Fraud suspected" 300000 300001 (arrays state0)
    = (h1, Some rejected)
    ∧ status rejected = Rejected
    ∧ handleRejectClaim rejected "Fraud suspected" 300002 300003 h1
      = (h2, Some again)
    ∧ status again = Rejected
    ∧ map text (deref h1 (comments rejected))
      = ["Happened yesterday around 5pm."; "CLAIM REJECTED: Fraud suspected"]
    ∧ map text (deref h2 (comments again))
      = ["Happened yesterday around 5pm."; "CLAIM REJECTED: Fraud suspected";
         "CLAIM REJECTED: Fraud suspected"].
Proof.
  eexists _, _, _, _.
  split; [reflexivity|]. split; [reflexivity|].
  split; [reflexivity|]. split; [reflexivity|].
  split; reflexivity.
Qed.

(** ** Timestamps *)

Lemma onClick_dates `{Platform} ctl claim role form t_id t_ts h h' updated :
  onClick ctl claim role form t_id t_ts h = (h', Some updated) →
  updatedAt updated = updatedAt claim ∧ createdAt updated = createdAt claim.
Proof.
  intros Hrun. destruct ctl; simpl in Hrun; handler_cases Hrun; by split.
Qed.

(** C6, as the code has it. No handler writes [updatedAt]: the claim that a
    status transition, an approval, a rejection, an estimate proposal or a
    comment publishes carries the [updatedAt] (and the [createdAt]) of the
    claim it was made from. The field is set when the claim is created and
    keeps that value; so it never decreases, and it is never refreshed. *)
Theorem click_leaves_updatedAt `{Platform}
    (ctl : Control) (claim : Claim) (role : UserRole) (form : Form)
    (t_id t_ts : Z) (h h' : Arrays) (updated : Claim) :
  click ctl claim role form t_id t_ts h = (h', Some updated) →
  updatedAt updated = updatedAt claim ∧ createdAt updated = createdAt claim.
Proof.
  unfold click. intros Hclick.
  destruct (rendered role claim ctl && negb (disabled form ctl));
    [|discriminate].
  by eapply onClick_dates.
Qed.

Lemma click_leaves_updatedAt_witness :
  ∃ h' updated,
    @click sample_platform ApproveEstimate claim0 InsuranceAgent sample_form
      900000 900001 (arrays state0) = (h', Some updated)
    ∧ status updated = Approved
    ∧ updatedAt updated = 200000.
Proof.
  destruct (@click sample_platform ApproveEstimate claim0 InsuranceAgent
              sample_form 900000 900001 (arrays state0))
    as [h' [updated|]] eqn:Hrun; [|vm_compute in Hrun; discriminate].
  destruct (@click_leaves_updatedAt sample_platform ApproveEstimate claim0
              InsuranceAgent sample_form 900000 900001 (arrays state0)
              h' updated Hrun) as [Hu _].
  exists h', updated. split; [reflexivity|].
  split; [|rewrite Hu; reflexivity].
  vm_compute in Hrun. by simplify_eq.
Defined.

(** Nor does the settling of an intake write it. *)
Lemma settle_claim_dates newId outcome c :
  updatedAt (settle_claim newId outcome c) = updatedAt c
  ∧ createdAt (settle_claim newId outcome c) = createdAt c.
Proof.
  unfold settle_claim.
  destruct outcome as [[[imgs analysis] shops]|];
    destruct (decide (claim_id c = newId)); by split.
Qed.

(** C6 as stated fails: a rejection made at clock reading 900000, on a claim
    last stamped 200000, publishes a claim whose [updatedAt] is still
    200000, while the comment written by the same call is stamped 900001. *)
Lemma rejection_keeps_stale_updatedAt :
  ∃ h' updated,
    @click sample_platform DenyAndReject claim0 InsuranceAgent sample_form
      900000 900001 (arrays state0) = (h', Some updated)
    ∧ status updated = Rejected
    ∧ updatedAt claim0 = 200000
    ∧ updatedAt updated = 200000
    ∧ updatedAt updated ≠ 900000
    ∧ map timestamp (deref h' (comments updated)) = [100000; 900001].
Proof.
  eexists _, _. split; [reflexivity|].
  repeat split; try reflexivity. discriminate.
Qed.

(** ** The AI gateway never hands its failure on *)

Lemma analyzeDamage_try_fails `{Platform} env imageParts prompt :
  ai_call_fails env (analysis_request imageParts prompt) →
  analyzeDamage_try env imageParts prompt = None.
Proof.
  unfold analyzeDamage_try. intros [-> | (response & -> & Hparse)]; simpl.
  - reflexivity.
  - by rewrite Hparse.
Qed.

Lemma fileToGenerativePart_None env file :
  fileToGenerativePart env file = None ↔ readAsDataURL env file = None.
Proof. unfold fileToGenerativePart. by destruct (readAsDataURL env file). Qed.

(** [analyzeDamage] rejects only when an image cannot be read. *)
Lemma analyzeDamage_throws_only_on_read `{Platform} env imageFiles vehicleInfo :
  analyzeDamage env imageFiles vehicleInfo = None ↔
  Exists (λ file, readAsDataURL env file = None) imageFiles.
Proof.
  transitivity (mapM (fileToGenerativePart env) imageFiles = None).
  - unfold analyzeDamage.
    by destruct (mapM (fileToGenerativePart env) imageFiles).
  - rewrite mapM_None.
    split; intros Hex; (eapply Exists_impl; [exact Hex|]);
      intros file; apply fileToGenerativePart_None.
Qed.

(** With the images read and the call of the model failing, the result is
    the value of the [catch] block. *)
Lemma analyzeDamage_degraded `{Platform} env imageFiles vehicleInfo imageParts :
  mapM (fileToGenerativePart env) imageFiles = Some imageParts →
  ai_call_fails env (analysis_request imageParts (analysis_prompt vehicleInfo)) →
  analyzeDamage env imageFiles vehicleInfo = Some degraded_analysis.
Proof.
  intros Hparts Hfail. unfold analyzeDamage. rewrite Hparts. simpl.
  by rewrite (analyzeDamage_try_fails _ _ _ Hfail).
Qed.

Lemma analyzeDamage_try_null `{Platform} env imageParts prompt :
  parses_to_null env (analysis_request imageParts prompt) →
  analyzeDamage_try env imageParts prompt = None.
Proof.
  unfold analyzeDamage_try. intros (response & -> & Hparse); simpl.
  by rewrite Hparse.
Qed.

(** C9, as the code has it. Whenever every image is read, [analyzeDamage]
    returns a result, whatever the call of the model does: no failure of
    that call reaches the caller as an error. When the call throws, when
    the text of its response is no JSON, and when it parses to [null], the
    result is the degraded one, whose assessment is "AI Analysis
    unavailable. Please review manually." and whose estimate has total,
    labor and parts cost 0, details "Manual estimation required." and
    source AI. *)
Theorem analyzeDamage_swallows_ai_failure `{Platform}
    (env : Env) (imageFiles : list File) (vehicleInfo : string)
    (imageParts : list InlineData) :
  mapM (fileToGenerativePart env) imageFiles = Some imageParts →
  is_Some (analyzeDamage env imageFiles vehicleInfo)
  ∧ (ai_call_fails env (analysis_request imageParts (analysis_prompt vehicleInfo))
     ∨ parses_to_null env
         (analysis_request imageParts (analysis_prompt vehicleInfo)) →
     ∃ result,
       analyzeDamage env imageFiles vehicleInfo = Some result
       ∧ assessment result
         = js_string "AI Analysis unavailable. Please review manually."
       ∧ totalCost (estimate result) = js_number 0
       ∧ laborCost (estimate result) = js_number 0
       ∧ partsCost (estimate result) = js_number 0
       ∧ details (estimate result) = js_string "Manual estimation required."
       ∧ source (estimate result) = SourceAI).
Proof.
  intros Hparts. split.
  - unfold analyzeDamage. rewrite Hparts. by eexists.
  - intros Hfail. exists degraded_analysis. split; [|by repeat split].
    unfold analyzeDamage. rewrite Hparts. simpl.
    destruct Hfail as [Hfail|Hnull].
    + by rewrite (analyzeDamage_try_fails _ _ _ Hfail).
    + by rewrite (analyzeDamage_try_null _ _ _ Hnull).
Qed.

Lemma analyzeDamage_swallows_ai_failure_witness :
  (∃ result,
     @analyzeDamage sample_platform env_down [sample_file] "2022 Toyota Camry XLE"
     = Some result
     ∧ totalCost (estimate result) = js_number 0)
  ∧ (∃ result,
     @analyzeDamage sample_platform env_garbled [sample_file] "2022 Toyota Camry XLE"
     = Some result
     ∧ assessment result
       = js_string "AI Analysis unavailable. Please review manually.")
  ∧ (∃ result,
     @analyzeDamage sample_platform env_null [sample_file] "2022 Toyota Camry XLE"
     = Some result
     ∧ details (estimate result) = js_string "Manual estimation required.").
Proof.
  split; [|split].
  - destruct (@analyzeDamage_swallows_ai_failure sample_platform env_down
                [sample_file] "2022 Toyota Camry XLE"
                [ {| data := "QUJD"; mimeType := "image/jpeg" |} ] eq_refl)
      as [_ Hdegraded].
    destruct Hdegraded as (result & Hrun & _ & Ht & _).
    + left. left. reflexivity.
    + exists result. by split.
  - destruct (@analyzeDamage_swallows_ai_failure sample_platform env_garbled
                [sample_file] "2022 Toyota Camry XLE"
                [ {| data := "QUJD"; mimeType := "image/jpeg" |} ] eq_refl)
      as [_ Hdegraded].
    destruct Hdegraded as (result & Hrun & Ha & _).
    + left. right. eexists. split; reflexivity.
    + exists result. by split.
  - destruct (@analyzeDamage_swallows_ai_failure sample_platform env_null
                [sample_file] "2022 Toyota Camry XLE"
                [ {| data := "QUJD"; mimeType := "image/jpeg" |} ] eq_refl)
      as [_ Hdegraded].
    destruct Hdegraded as (result & Hrun & _ & _ & _ & _ & Hd & _).
    + right. eexists. split; reflexivity.
    + exists result. by split.
Defined.

(** C9 as stated fails: a response without text is a malformed response,
    and it is not turned into the degraded result. The source parses its
    own default, the text of the empty object, reads the five properties
    from it, and returns an assessment and costs that are [undefined]. *)
Lemma analyzeDamage_response_without_text :
  generateContent env_textless
    (analysis_request [ {| data := "QUJD"; mimeType := "image/jpeg" |} ]
       (analysis_prompt "2022 Toyota Camry XLE"))
  = Some {| response_text := None; candidates := None |}
  ∧ ∃ result,
      @analyzeDamage sample_platform env_textless [sample_file]
        "2022 Toyota Camry XLE" = Some result
      ∧ assessment result = None
      ∧ totalCost (estimate result) = None
      ∧ laborCost (estimate result) = None
      ∧ partsCost (estimate result) = None
      ∧ details (estimate result) = None
      ∧ source (estimate result) = SourceAI
      ∧ assessment result
        ≠ js_string "AI Analysis unavailable. Please review manually."
      ∧ totalCost (estimate result) ≠ js_number 0
      ∧ result ≠ degraded_analysis.
Proof.
  split; [reflexivity|].
  eexists. split; [vm_compute; reflexivity|].
  repeat split; try reflexivity; discriminate.
Qed.

(** ** Repair shop suggestions *)

Lemma suggestions_default (suggestions : list RepairShopSuggestion) :
  (if decide (length suggestions = 0%nat) then hardcoded_shops else suggestions)
  ≠ [].
Proof.
  destruct (decide (length suggestions = 0%nat)) as [Hz|Hnz]; [discriminate|].
  intros ->. by apply Hnz.
Qed.

(** C10. When the call of the model in [findRepairShops] returns, the
    result is not empty: it is the hard-coded list of three shops
    (FixItRight Auto Body, Prestige Collision Center, Quick Fix Garage)
    if no suggestion was extracted from the response, and the extracted
    suggestions otherwise. An empty result is returned only when the call
    throws. *)
Theorem findRepairShops_empty_only_on_throw
    (env : Env) (locationDesc : option string) :
  let req := shops_request (default "San Francisco, CA" locationDesc) in
  (∀ response,
     generateContent env req = Some response →
     findRepairShops env locationDesc ≠ []
     ∧ (extract_suggestions response = [] →
        findRepairShops env locationDesc = hardcoded_shops)
     ∧ (extract_suggestions response ≠ [] →
        findRepairShops env locationDesc = extract_suggestions response))
  ∧ (findRepairShops env locationDesc = [] → generateContent env req = None)
  ∧ map name hardcoded_shops
    = ["FixItRight Auto Body"; "Prestige Collision Center"; "Quick Fix Garage"].
Proof.
  intros req. unfold findRepairShops. fold req.
  split; [|split; [|reflexivity]].
  - intros response ->. split; [apply suggestions_default|].
    split.
    + intros ->. reflexivity.
    + intros Hne. destruct (decide _) as [Hz|_]; [|reflexivity].
      by destruct (extract_suggestions response).
  - destruct (generateContent env req) as [response|]; [|done].
    intros Hempty. by apply suggestions_default in Hempty.
Qed.

Lemma findRepairShops_empty_only_on_throw_witness :
  findRepairShops env_up (Some "Current Location") = hardcoded_shops
  ∧ map name (findRepairShops env_grounded (Some "Current Location"))
    = ["Acme Body Shop"]
  ∧ findRepairShops env_down (Some "Current Location") = [].
Proof.
  destruct (findRepairShops_empty_only_on_throw env_up (Some "Current Location"))
    as (Hup & _ & _).
  destruct (findRepairShops_empty_only_on_throw env_grounded
              (Some "Current Location")) as (Hgrounded & _ & _).
  split; [|split; [|reflexivity]].
  - edestruct Hup as (_ & Hhard & _); [reflexivity|].
    apply Hhard. reflexivity.
  - edestruct Hgrounded as (_ & _ & Hextract); [reflexivity|].
    rewrite Hextract; [reflexivity|discriminate].
Defined.

(** ** Intake when the model is down *)

(** The [catch] block of [handleCreateClaim] runs exactly when an image
    cannot be read, in its own reads or in those of [analyzeDamage]. *)
Lemma handleCreateClaim_try_None `{Platform} env_images env_analysis env_shops data :
  handleCreateClaim_try env_images env_analysis env_shops data = None ↔
  processImages env_images (images data) = None
  ∨ Exists (λ file, readAsDataURL env_analysis file = None) (images data).
Proof.
  rewrite <- (analyzeDamage_throws_only_on_read env_analysis (images data)
                (data_vehicleYear data +:+ " " +:+ data_vehicleModel data)).
  unfold handleCreateClaim_try.
  destruct (processImages env_images (images data)); simpl;
    [|split; [by left|done]].
  destruct (analyzeDamage env_analysis _ _); simpl.
  - split; [done|]. by intros [?|?].
  - split; [by right|done].
Qed.

(** C5, as the code has it. When the images are readable and the call of
    the model made by [analyzeDamage] during intake fails, the intake does
    not take its [catch] path: the new claim is first in the list, its
    [aiEstimate] has total cost 0 and is also its [currentEstimate], its
    [aiDamageAssessment] is "AI Analysis unavailable. Please review
    manually.", and its status is [Estimated]. *)
Theorem intake_with_failed_ai_is_Estimated `{Platform}
    (env_images env_analysis env_shops : Env) (data : CreateClaimData)
    (t_id t_created t_updated : Z) (s : AppState)
    (processedImages : list string) (imageParts : list InlineData) :
  processImages env_images (images data) = Some processedImages →
  mapM (fileToGenerativePart env_analysis) (images data) = Some imageParts →
  ai_call_fails env_analysis
    (analysis_request imageParts
       (analysis_prompt (data_vehicleYear data +:+ " " +:+ data_vehicleModel data))) →
  ∃ c rest e,
    claims (handleCreateClaim env_images env_analysis env_shops data
              t_id t_created t_updated s) = c :: rest
    ∧ claim_id c = pretty t_id
    ∧ status c = Estimated
    ∧ aiDamageAssessment c
      = js_string "AI Analysis unavailable. Please review manually."
    ∧ aiEstimate c = Some e
    ∧ totalCost e = 0%float
    ∧ currentEstimate c = Some e.
Proof.
  intros Himages Hparts Hfail.
  pose proof (analyzeDamage_degraded env_analysis (images data) _ _
                Hparts Hfail) as Hrun.
  unfold handleCreateClaim, handleCreateClaim_settle, handleCreateClaim_start,
    handleCreateClaim_try, alloc; simpl.
  rewrite Himages; simpl. rewrite Hrun; simpl.
  rewrite decide_True by reflexivity.
  eexists _, _, _. split; [reflexivity|]. by repeat split.
Qed.

Lemma intake_with_failed_ai_is_Estimated_witness :
  ∃ c rest e,
    claims (@handleCreateClaim sample_platform env_up env_garbled env_up
              sample_data 300000 300001 300002 state0) = c :: rest
    ∧ claim_id c = "300000"
    ∧ status c = Estimated
    ∧ aiEstimate c = Some e
    ∧ totalCost e = 0%float.
Proof.
  destruct (@intake_with_failed_ai_is_Estimated sample_platform env_up
              env_garbled env_up sample_data 300000 300001 300002 state0
              ["QUJD"] [ {| data := "QUJD"; mimeType := "image/jpeg" |} ])
    as (c & rest & e & Hclaims & Hid & Hst & _ & He & Ht & _).
  - reflexivity.
  - reflexivity.
  - right. eexists. split; reflexivity.
  - exists c, rest, e. by repeat split.
Defined.

(** C5 as stated fails: with readable images and a model whose every call
    throws, the claim that results has the zero estimate and the
    "unavailable" assessment, and its status is [Estimated], not
    [Submitted]. *)
Lemma intake_with_gateway_down :
  generateContent env_down
    (analysis_request [ {| data := "QUJD"; mimeType := "image/jpeg" |} ]
       (analysis_prompt "2022 Toyota Camry XLE")) = None
  ∧ ∃ c rest e,
      claims (@handleCreateClaim sample_platform env_down env_down env_down
                sample_data 300000 300001 300002 state0) = c :: rest
      ∧ claim_id c = "300000"
      ∧ aiEstimate c = Some e
      ∧ totalCost e = 0%float
      ∧ aiDamageAssessment c
        = js_string "AI Analysis unavailable. Please review manually."
      ∧ status c = Estimated
      ∧ status c ≠ Submitted.
Proof.
  split; [reflexivity|].
  eexists _, _, _. split; [vm_compute; reflexivity|].
  repeat split; try reflexivity. discriminate.
Qed.

(** The status [Submitted] is what the [catch] path leaves, and then the
    claim has no AI estimate at all. *)
Lemma intake_with_unreadable_image :
  ∃ c rest,
    claims (@handleCreateClaim sample_platform env_unreadable env_up env_up
              sample_data 300000 300001 300002 state0) = c :: rest
    ∧ status c = Submitted
    ∧ aiEstimate c = None
    ∧ aiDamageAssessment c = None.
Proof.
  eexists _, _. split; [vm_compute; reflexivity|]. by repeat split.
Qed.

(** ** The current estimate *)

Lemma selectedClaim_listed s claim :
  selectedClaim s = Some claim → claim ∈ claims s.
Proof.
  unfold selectedClaim. destruct (selectedClaimId s) as [sel|]; [|done].
  simpl. intros Hfind. apply find_some in Hfind as [Hin _].
  by apply list_elem_of_In.
Qed.

Lemma handleUpdateClaim_Forall (P : Claim → Prop) updated prev :
  P updated → Forall P prev → Forall P (handleUpdateClaim updated prev).
Proof.
  intros Hu Hprev. unfold handleUpdateClaim. apply List.Forall_map.
  eapply Forall_impl; [exact Hprev|].
  intros c Hc. simpl. by destruct (decide _).
Qed.

Lemma onClick_current `{Platform} ctl claim role form t_id t_ts h h' updated :
  onClick ctl claim role form t_id t_ts h = (h', Some updated) →
  current_is_agent_else_ai claim → current_is_agent_else_ai updated.
Proof.
  unfold current_is_agent_else_ai. intros Hrun Hc.
  destruct ctl; simpl in Hrun; handler_cases Hrun; done.
Qed.

Lemma click_current `{Platform} ctl claim role form t_id t_ts h h' updated :
  click ctl claim role form t_id t_ts h = (h', Some updated) →
  current_is_agent_else_ai claim → current_is_agent_else_ai updated.
Proof.
  unfold click.
  destruct (rendered role claim ctl && negb (disabled form ctl));
    [apply onClick_current|discriminate].
Qed.

(** Every event keeps the rule on every listed claim, unless it is an
    intake that settles on a claim with an agent estimate. *)
Lemma step_current `{Platform} s s' :
  step s s' →
  ¬ settles_after_agent s s' →
  Forall current_is_agent_else_ai (claims s) →
  Forall current_is_agent_else_ai (claims s').
Proof.
  intros Hstep Hturn Hall. destruct Hstep as
    [s role | s c Hc | s claim ctl form t_id t_ts Hsel
    | s data t_id t_created t_updated Hrole Hdata
    | s newId data before after e1 e2 e3 Hpending]; simpl.
  - exact Hall.
  - exact Hall.
  - unfold run.
    destruct (click ctl claim (userRole s) form t_id t_ts (arrays s))
      as [h' [updated|]] eqn:Hclick; simpl; [|exact Hall].
    apply handleUpdateClaim_Forall; [|exact Hall].
    eapply click_current; [exact Hclick|].
    rewrite Forall_forall in Hall. apply Hall.
    by apply selectedClaim_listed.
  - unfold handleCreateClaim_start, alloc; simpl.
    apply Forall_cons. split; [reflexivity|exact Hall].
  - rewrite Forall_forall in Hall. apply Forall_forall. intros c' Hc'.
    apply list_elem_of_In, List.in_map_iff in Hc' as (c & <- & Hc).
    apply list_elem_of_In in Hc. specialize (Hall c Hc).
    unfold settle_claim.
    destruct (handleCreateClaim_try e1 e2 e3 data)
      as [[[imgs analysis] shops]|] eqn:Htry;
      destruct (decide (claim_id c = newId)) as [Hid|Hid]; try exact Hall.
    unfold current_is_agent_else_ai. simpl.
    destruct (agentEstimate c) as [agent|] eqn:Hagent; [|reflexivity].
    exfalso. apply Hturn.
    exists newId, data, before, after, e1, e2, e3, c.
    split; [exact Hpending|]. split; [reflexivity|].
    split; [rewrite Htry; by eexists|]. split; [exact Hc|].
    split; [exact Hid|]. rewrite Hagent. by eexists.
Qed.

(** C3, as the code has it. In every state that the application reaches
    by events among which no intake settles with its AI results on a claim
    that has an agent estimate already, the stored [currentEstimate] of every listed claim is
    its agent estimate if it has one, and its AI estimate otherwise,
    whether or not it has a repair-shop estimate. So after a Repair Shop
    proposal on a claim with no agent estimate the current estimate is
    still the AI estimate. *)
Theorem currentEstimate_agent_else_ai `{Platform}
    (t_comment t_created t_updated : Z) (s : AppState) (c : Claim) :
  rtc step_in_turn (initial_state t_comment t_created t_updated) s →
  c ∈ claims s →
  currentEstimate c = match agentEstimate c with
                      | Some agent => Some agent
                      | None => aiEstimate c
                      end.
Proof.
  intros Hrtc Hc.
  assert (Hall : Forall current_is_agent_else_ai (claims s)).
  { clear Hc. revert s Hrtc.
    apply (rtc_ind_r (λ s, Forall current_is_agent_else_ai (claims s))).
    - apply Forall_cons. split; [reflexivity|apply Forall_nil_2].
    - intros s1 s2 _ [Hstep Hturn] IH. by eapply step_current. }
  rewrite Forall_forall in Hall. by apply Hall.
Qed.

Lemma state_shop_proposed_reachable : @reachable sample_platform state_shop_proposed.
Proof.
  exists 200000, 200000, 200000.
  eapply rtc_l; [apply (step_role _ RepairShop)|].
  eapply rtc_l; [apply (step_select _ claim0); apply list_elem_of_here|].
  apply rtc_once.
  exact (@step_click sample_platform
           (setSelectedClaimId (claim_id claim0) (setUserRole RepairShop state0))
           claim0 SubmitAdjustment sample_form 300000 300001 eq_refl).
Qed.

(** No intake is suspended, so none can settle. *)
Lemma nothing_pending `{Platform} (s s' : AppState) :
  pending s = [] → ¬ settles_after_agent s s'.
Proof.
  intros Hnone (newId & data & before & after & e1 & e2 & e3 & c & Hpending & _).
  rewrite Hnone in Hpending. by destruct before.
Qed.

Lemma currentEstimate_agent_else_ai_witness :
  ∃ c shop,
    c ∈ claims state_shop_proposed
    ∧ agentEstimate c = None
    ∧ repairShopEstimate c = Some shop
    ∧ currentEstimate c = aiEstimate c
    ∧ currentEstimate c ≠ Some shop.
Proof.
  assert (Hrtc : rtc (@step_in_turn sample_platform)
                   (initial_state 200000 200000 200000) state_shop_proposed).
  { eapply rtc_l.
    { split; [apply (step_role _ RepairShop)|by apply nothing_pending]. }
    eapply rtc_l.
    { split; [apply (step_select _ claim0); apply list_elem_of_here
             |by apply nothing_pending]. }
    apply rtc_once. split; [|by apply nothing_pending].
    exact (@step_click sample_platform
             (setSelectedClaimId (claim_id claim0) (setUserRole RepairShop state0))
             claim0 SubmitAdjustment sample_form 300000 300001 eq_refl). }
  destruct (claims state_shop_proposed) as [|c rest] eqn:Hclaims;
    [vm_compute in Hclaims; discriminate|].
  assert (Hc : c ∈ claims state_shop_proposed)
    by (rewrite Hclaims; apply list_elem_of_here).
  pose proof (@currentEstimate_agent_else_ai sample_platform 200000 200000 200000
                state_shop_proposed c Hrtc Hc) as Hrule.
  assert (Hagent : agentEstimate c = None)
    by (vm_compute in Hclaims; by injection Hclaims as <- _).
  rewrite Hagent in Hrule.
  destruct (repairShopEstimate c) as [shop|] eqn:Hshop;
    [|vm_compute in Hclaims; injection Hclaims as <- _; discriminate].
  exists c, shop. split; [apply list_elem_of_here|]. split; [exact Hagent|].
  split; [exact Hshop|]. split; [exact Hrule|].
  rewrite Hrule. vm_compute in Hclaims. injection Hclaims as <- _.
  simpl in Hshop. injection Hshop as <-. discriminate.
Defined.

(** C3 as stated fails: after the repair shop's proposal on the listed
    claim, which has no agent estimate, the precedence rule yields the
    repair shop's 1500 while the stored [currentEstimate] is still the AI
    estimate of 1200. *)
Lemma currentEstimate_ignores_shop_proposal :
  @reachable sample_platform state_shop_proposed
  ∧ ∃ c shop,
      claims state_shop_proposed = [c]
      ∧ agentEstimate c = None
      ∧ repairShopEstimate c = Some shop
      ∧ source shop = SourceRepairShop
      ∧ Spec.precedence c = Some shop
      ∧ currentEstimate c = Some INITIAL_estimate
      ∧ currentEstimate c ≠ Spec.precedence c.
Proof.
  split; [apply state_shop_proposed_reachable|].
  eexists _, _. split; [vm_compute; reflexivity|].
  repeat split; try reflexivity.
  simpl. intros Heq. by simplify_eq.
Qed.

(** ** From a published update to the claim list *)

Lemma run_publishes (handler : Handler) (s : AppState) h' updated :
  handler (arrays s) = (h', Some updated) →
  claims (run handler s) = handleUpdateClaim updated (claims s)
  ∧ arrays (run handler s) = h'
  ∧ userRole (run handler s) = userRole s
  ∧ selectedClaimId (run handler s) = selectedClaimId s.
Proof. intros Hh. unfold run. rewrite Hh. by repeat split. Qed.

(** The update takes the place of every listed claim with its id, and the
    other claims stay. *)
Lemma handleUpdateClaim_lookup updated prev i c :
  prev !! i = Some c →
  handleUpdateClaim updated prev !! i
  = Some (if decide (claim_id c = claim_id updated) then updated else c).
Proof.
  intros Hi. unfold handleUpdateClaim.
  change (map ?f prev) with (f <$> prev).
  by rewrite list_lookup_fmap, Hi.
Qed.

(** Every handler publishes a claim with the id of the claim it was given,
    so the update replaces that claim. *)
Lemma onClick_claim_id `{Platform} ctl claim role form t_id t_ts h h' updated :
  onClick ctl claim role form t_id t_ts h = (h', Some updated) →
  claim_id updated = claim_id claim.
Proof.
  intros Hrun. destruct ctl; simpl in Hrun; handler_cases Hrun; reflexivity.
Qed.

Lemma click_claim_id `{Platform} ctl claim role form t_id t_ts h h' updated :
  click ctl claim role form t_id t_ts h = (h', Some updated) →
  claim_id updated = claim_id claim.
Proof.
  unfold click.
  destruct (rendered role claim ctl && negb (disabled form ctl));
    [apply onClick_claim_id|discriminate].
Qed.

Lemma find_handleUpdateClaim updated prev sel :
  find (λ c, bool_decide (claim_id c = sel)) (handleUpdateClaim updated prev)
  = (λ c, if decide (claim_id c = claim_id updated) then updated else c)
      <$> find (λ c, bool_decide (claim_id c = sel)) prev.
Proof.
  unfold handleUpdateClaim.
  induction prev as [|c prev IH]; [reflexivity|]. simpl.
  destruct (decide (claim_id c = claim_id updated)) as [Heq|Hne].
  - replace (bool_decide (claim_id updated = sel))
      with (bool_decide (claim_id c = sel)) by (by rewrite Heq).
    destruct (bool_decide (claim_id c = sel)); [|exact IH].
    simpl. by rewrite decide_True.
  - destruct (bool_decide (claim_id c = sel)); [|exact IH].
    simpl. by rewrite decide_False.
Qed.

(** After an action on the claim on display has published an update, the
    claim on display is that update. *)
Lemma run_click_selected `{Platform} ctl claim form t_id t_ts s h' updated :
  selectedClaim s = Some claim →
  click ctl claim (userRole s) form t_id t_ts (arrays s) = (h', Some updated) →
  selectedClaim (run (click ctl claim (userRole s) form t_id t_ts) s)
  = Some updated.
Proof.
  intros Hsel Hclick.
  pose proof (click_claim_id _ _ _ _ _ _ _ _ _ Hclick) as Hid.
  unfold selectedClaim in *. unfold run. rewrite Hclick. simpl.
  destruct (selectedClaimId s) as [sel|]; [|done]. simpl in *.
  rewrite find_handleUpdateClaim, Hsel. simpl.
  by rewrite decide_True.
Qed.

(** ** The intake and the transition table *)

(** The final update of an intake moves a claim that is still under AI
    review along a row of the table: to [Estimated] when the [try] block
    completed, to [Submitted] from the [catch] block. *)
Lemma settle_claim_in_table newId outcome c :
  claim_id c = newId →
  status c = AIReview →
  match outcome with
  | Some _ =>
      Spec.transition Spec.AIGateway (status c) Spec.AssessmentComplete
      = Some (status (settle_claim newId outcome c))
  | None =>
      Spec.transition Spec.SystemFallback (status c) Spec.AIGatewayFailure
      = Some (status (settle_claim newId outcome c))
  end.
Proof.
  intros Hid Hst. unfold settle_claim. rewrite Hst.
  destruct outcome as [[[imgs analysis] shops]|];
    by rewrite decide_True.
Qed.

(** It does not look at the status it overwrites. An agent who acts on the
    new claim while its intake is suspended is overruled when the intake
    settles: the agent's early proposal stays in [agentEstimate] while
    [currentEstimate] becomes the AI estimate, and an early rejection is
    turned into [Estimated] with its rejection comment left in place. *)
Lemma state_early_proposal_reachable : @reachable sample_platform state_early_proposal.
Proof.
  exists 200000, 200000, 200000.
  eapply rtc_l.
  { apply (@step_submit sample_platform state0 sample_data 300000 300001 300002);
      [discriminate|reflexivity]. }
  eapply rtc_l; [apply (step_role _ InsuranceAgent)|].
  eapply rtc_l.
  { exact (@step_click sample_platform state_intake_started
             claim_intake_started SubmitAdjustment agent_form 300010 300011
             eq_refl). }
  apply rtc_once.
  exact (@step_settle sample_platform
           (run (@click sample_platform SubmitAdjustment claim_intake_started
                   InsuranceAgent agent_form 300010 300011)
              state_intake_started)
           "300000" sample_data [] [] env_up env_up env_up eq_refl).
Qed.

Lemma settle_overrules_early_proposal :
  ∃ c rest agent ai,
    claims state_early_proposal = c :: rest
    ∧ agentEstimate c = Some agent ∧ totalCost agent = 1800%float
    ∧ aiEstimate c = Some ai ∧ totalCost ai = 1000%float
    ∧ currentEstimate c = Some ai.
Proof.
  eexists _, _, _, _. split; [vm_compute; reflexivity|]. by repeat split.
Qed.

Lemma state_early_rejection_reachable : @reachable sample_platform state_early_rejection.
Proof.
  exists 200000, 200000, 200000.
  eapply rtc_l.
  { apply (@step_submit sample_platform state0 sample_data 300000 300001 300002);
      [discriminate|reflexivity]. }
  eapply rtc_l; [apply (step_role _ InsuranceAgent)|].
  eapply rtc_l.
  { exact (@step_click sample_platform state_intake_started
             claim_intake_started DenyAndReject agent_form 300010 300011
             eq_refl). }
  apply rtc_once.
  exact (@step_settle sample_platform
           (run (@click sample_platform DenyAndReject claim_intake_started
                   InsuranceAgent agent_form 300010 300011)
              state_intake_started)
           "300000" sample_data [] [] env_up env_up env_up eq_refl).
Qed.

Lemma settle_overrules_early_rejection :
  ∃ c rest,
    claims state_early_rejection = c :: rest
    ∧ status c = Estimated
    ∧ map text (deref (arrays state_early_rejection) (comments c))
      = ["CLAIM REJECTED: Fraud suspected"].
Proof.
  eexists _, _. split; [vm_compute; reflexivity|]. by split.
Qed.

(** ** The end-to-end scenarios of the specification *)

(** Scenario 3: approval by the agent, reception and completion by the
    repair shop, pick-up by the policyholder; then no control is left but
    the comment box. *)
Lemma scenario_lifecycle :
  let sel := setSelectedClaimId "1" state0 in
  let approved := with_status Approved claim0 in
  let inRepair := with_status InRepair claim0 in
  let pending := with_status PickUpPending claim0 in
  let closed := with_status Closed claim0 in
  let s1 := run (@click sample_platform ApproveEstimate claim0 InsuranceAgent
                   sample_form 1 2) (setUserRole InsuranceAgent sel) in
  let s2 := run (@click sample_platform StartRepair approved RepairShop
                   sample_form 3 4) (setUserRole RepairShop s1) in
  let s3 := run (@click sample_platform RepairCompleted inRepair RepairShop
                   sample_form 5 6) s2 in
  let s4 := run (@click sample_platform PickUpCompleted pending Policyholder
                   sample_form 7 8) (setUserRole Policyholder s3) in
  selectedClaim s1 = Some approved
  ∧ selectedClaim s2 = Some inRepair
  ∧ selectedClaim s3 = Some pending
  ∧ selectedClaim s4 = Some closed
  ∧ ∀ role ctl, ctl ≠ SendComment → rendered role closed ctl = false.
Proof.
  repeat split; try reflexivity.
  intros role ctl Hctl. by apply rendered_terminal.
Qed.

(** Scenario 4: the agent rejects the estimated claim for suspected fraud;
    the claim on display is then rejected and its last comment is that
    rejection, authored by the insurance agent. *)
Lemma scenario_rejection :
  let s := run (@click sample_platform DenyAndReject claim0 InsuranceAgent
                  sample_form 300000 300001)
             (setUserRole InsuranceAgent (setSelectedClaimId "1" state0)) in
  ∃ c cmt,
    selectedClaim s = Some c
    ∧ status c = Rejected
    ∧ last (deref (arrays s) (comments c)) = Some cmt
    ∧ text cmt = "CLAIM REJECTED: Fraud suspected"
    ∧ authorRole cmt = InsuranceAgent.
Proof. eexists _, _. split; [reflexivity|]. by repeat split. Qed.

(** The precedence scenario: the AI estimate is 1200; the repair shop
    proposes 1500 and the current estimate stays at 1200; the agent then
    proposes 1800, which becomes both the agent estimate and the current
    estimate. *)
Lemma scenario_negotiation :
  ∃ c rest,
    claims state_shop_proposed = c :: rest
    ∧ (totalCost <$> currentEstimate c) = Some (js_number 1200)
    ∧ (totalCost <$> repairShopEstimate c) = Some (js_number 1500)
    ∧ ∃ h' c',
        @handleNegotiate sample_platform c InsuranceAgent "1800"
          "Agreed after inspection" 300010 300011 (arrays state_shop_proposed)
        = (h', Some c')
        ∧ (totalCost <$> currentEstimate c') = Some (js_number 1800)
        ∧ (totalCost <$> agentEstimate c') = Some (js_number 1800)
        ∧ (totalCost <$> repairShopEstimate c') = Some (js_number 1500).
Proof.
  eexists _, _. split; [vm_compute; reflexivity|].
  split; [reflexivity|]. split; [reflexivity|].
  eexists _, _. split; [vm_compute; reflexivity|]. by repeat split.
Qed.

(** ** Comment references are live *)

(** The hypothesis of the statements about [push], that the claim's comments
    reference is live, holds for every listed claim of every reachable
    state. *)

Lemma onClick_live `{Platform} ctl claim role form t_id t_ts (h h' : Arrays) updated :
  onClick ctl claim role form t_id t_ts h = (h', Some updated) →
  comments_live h claim →
  (length h ≤ length h')%nat ∧ comments_live h' updated.
Proof.
  unfold comments_live. intros Hrun Hlive.
  destruct ctl; simpl in Hrun; handler_cases Hrun;
    rewrite ?length_push, ?length_app; simpl; lia.
Qed.

Lemma click_live `{Platform} ctl claim role form t_id t_ts (h h' : Arrays) update :
  click ctl claim role form t_id t_ts h = (h', update) →
  comments_live h claim →
  (length h ≤ length h')%nat
  ∧ ∀ updated, update = Some updated → comments_live h' updated.
Proof.
  unfold click. intros Hclick Hlive.
  destruct (rendered role claim ctl && negb (disabled form ctl)).
  - destruct update as [updated|].
    + destruct (onClick_live _ _ _ _ _ _ _ _ _ Hclick Hlive) as [Hle Hu].
      split; [exact Hle|]. by intros ? [= <-].
    + split; [|done].
      destruct ctl; simpl in Hclick; handler_cases Hclick; lia.
  - injection Hclick as <- <-. split; [lia|done].
Qed.

Lemma step_live `{Platform} s s' :
  step s s' →
  Forall (comments_live (arrays s)) (claims s) →
  Forall (comments_live (arrays s')) (claims s').
Proof.
  intros Hstep Hall. destruct Hstep as
    [s role | s c Hc | s claim ctl form t_id t_ts Hsel
    | s data t_id t_created t_updated Hrole Hdata
    | s newId data before after e1 e2 e3 Hpending]; simpl.
  - exact Hall.
  - exact Hall.
  - assert (Hclaim : comments_live (arrays s) claim).
    { rewrite Forall_forall in Hall. apply Hall.
      by apply selectedClaim_listed. }
    unfold run.
    destruct (click ctl claim (userRole s) form t_id t_ts (arrays s))
      as [h' update] eqn:Hclick; simpl.
    destruct (click_live _ _ _ _ _ _ _ _ _ Hclick Hclaim) as [Hle Hupdated].
    assert (Hold : Forall (comments_live h') (claims s)).
    { eapply Forall_impl; [exact Hall|].
      unfold comments_live. intros c Hc. lia. }
    destruct update as [updated|]; [|exact Hold].
    apply handleUpdateClaim_Forall; [by apply Hupdated|exact Hold].
  - unfold handleCreateClaim_start, alloc; simpl.
    apply Forall_cons. split.
    + unfold comments_live. rewrite length_app. simpl. lia.
    + eapply Forall_impl; [exact Hall|].
      unfold comments_live. intros c Hc. rewrite length_app. lia.
  - apply List.Forall_map. eapply Forall_impl; [exact Hall|].
    unfold comments_live, settle_claim. intros c Hc.
    destruct (handleCreateClaim_try e1 e2 e3 data) as [[[imgs analysis] shops]|];
      by destruct (decide (claim_id c = newId)).
Qed.

Lemma reachable_comments_live `{Platform} (s : AppState) (c : Claim) :
  reachable s → c ∈ claims s → comments_live (arrays s) c.
Proof.
  intros (t_comment & t_created & t_updated & Hrtc) Hc.
  assert (Hall : Forall (comments_live (arrays s)) (claims s)).
  { clear Hc. revert s Hrtc.
    apply (rtc_ind_r (λ s, Forall (comments_live (arrays s)) (claims s))).
    - apply Forall_cons. split; [|apply Forall_nil_2].
      unfold comments_live. simpl. lia.
    - intros s1 s2 _ Hstep IH. eapply step_live; [exact Hstep|exact IH]. }
  rewrite Forall_forall in Hall. by apply Hall.
Qed.

(** ** Comments *)

(** X1. A comment that is empty or only white space is dropped: no update
    is published and no array changes. Any other comment is published on a
    copy: the update refers to a freshly allocated array holding the old
    comments followed by exactly one new comment, whose text is the input
    as typed (not trimmed) and whose author is the acting role; the array
    of the claim the update was made from is untouched, and the status, the
    estimates and every other field of the claim are kept. *)
Theorem handleAddComment_appends_untrimmed `{Platform}
    (claim : Claim) (role : UserRole) (commentText : string) (t_id t_ts : Z)
    (h : Arrays) :
  comments_live h claim →
  (trim commentText = "" →
     handleAddComment claim role commentText t_id t_ts h = (h, None))
  ∧ (trim commentText ≠ "" →
     ∃ updated,
       handleAddComment claim role commentText t_id t_ts h
       = (h ++ [deref h (comments claim)
                ++ [user_comment role commentText t_id t_ts]], Some updated)
       ∧ comments updated = length h
       ∧ text (user_comment role commentText t_id t_ts) = commentText
       ∧ authorRole (user_comment role commentText t_id t_ts) = role
       ∧ authorName (user_comment role commentText t_id t_ts)
         = UserRole_value role
       ∧ comment_id (user_comment role commentText t_id t_ts) = pretty t_id
       ∧ timestamp (user_comment role commentText t_id t_ts) = t_ts
       ∧ (h ++ [deref h (comments claim)
                ++ [user_comment role commentText t_id t_ts]])
         !! comments claim = h !! comments claim
       ∧ status updated = status claim
       ∧ currentEstimate updated = currentEstimate claim
       ∧ repairShopEstimate updated = repairShopEstimate claim
       ∧ agentEstimate updated = agentEstimate claim
       ∧ claim_id updated = claim_id claim
       ∧ policyNumber updated = policyNumber claim
       ∧ policyholderName updated = policyholderName claim
       ∧ vehicleModel updated = vehicleModel claim
       ∧ vehicleYear updated = vehicleYear claim
       ∧ accidentDetails updated = accidentDetails claim
       ∧ aiEstimate updated = aiEstimate claim
       ∧ aiDamageAssessment updated = aiDamageAssessment claim
       ∧ aiConfidenceScore updated = aiConfidenceScore claim
       ∧ suggestedShops updated = suggestedShops claim
       ∧ damageImages updated = damageImages claim
       ∧ createdAt updated = createdAt claim
       ∧ updatedAt updated = updatedAt claim).
Proof.
  intros Hlive. unfold handleAddComment, alloc. split.
  - intros ->%falsy_true. reflexivity.
  - intros Hne%falsy_false. rewrite Hne.
    eexists. split; [reflexivity|]. simpl.
    repeat match goal with |- _ ∧ _ => split end; try reflexivity.
    by apply lookup_app_l.
Qed.

Lemma handleAddComment_appends_untrimmed_witness :
  @handleAddComment sample_platform claim0 Policyholder "   " 300000 300001
    (arrays state0) = (arrays state0, None)
  ∧ ∃ h' updated,
      @handleAddComment sample_platform claim0 Policyholder " Any update? "
        300000 300001 (arrays state0) = (h', Some updated)
      ∧ map text (deref h' (comments updated))
        = ["Happened yesterday around 5pm."; " Any update? "]
      ∧ map text (deref h' (comments claim0))
        = ["Happened yesterday around 5pm."].
Proof.
  assert (Hlive : comments_live (arrays state0) claim0) by (vm_compute; lia).
  destruct (@handleAddComment_appends_untrimmed sample_platform claim0
              Policyholder "   " 300000 300001 (arrays state0) Hlive)
    as [Hblank _].
  destruct (@handleAddComment_appends_untrimmed sample_platform claim0
              Policyholder " Any update? " 300000 300001 (arrays state0) Hlive)
    as [_ Hsome].
  split; [by apply Hblank|].
  destruct Hsome as (updated & Hrun & Hc & _); [vm_compute; discriminate|].
  eexists _, updated. split; [exact Hrun|]. rewrite Hc. by split.
Defined.

(** ** The claim list *)

Lemma handleUpdateClaim_ids updated prev :
  map claim_id (handleUpdateClaim updated prev) = map claim_id prev.
Proof.
  unfold handleUpdateClaim. rewrite List.map_map. apply List.map_ext.
  intros c. by destruct (decide (claim_id c = claim_id updated)) as [->|].
Qed.

(** X2. [handleUpdateClaim] replaces by id and nothing else: the ids of the
    list and their order are kept; every claim of the result is the update
    or a claim of the old list with another id; an update whose id is not
    listed leaves the list as it is; and applying the same update twice is
    applying it once. *)
Theorem handleUpdateClaim_replaces_by_id (updated : Claim) (prev : list Claim) :
  map claim_id (handleUpdateClaim updated prev) = map claim_id prev
  ∧ (∀ c, c ∈ handleUpdateClaim updated prev →
       c = updated ∨ (c ∈ prev ∧ claim_id c ≠ claim_id updated))
  ∧ (claim_id updated ∉ map claim_id prev →
       handleUpdateClaim updated prev = prev)
  ∧ handleUpdateClaim updated (handleUpdateClaim updated prev)
    = handleUpdateClaim updated prev.
Proof.
  split; [apply handleUpdateClaim_ids|]. split; [|split].
  - intros c Hc. unfold handleUpdateClaim in Hc.
    apply list_elem_of_In, List.in_map_iff in Hc as (c0 & Hc0 & Hin).
    apply list_elem_of_In in Hin.
    destruct (decide (claim_id c0 = claim_id updated)) as [Heq|Hne].
    + by left.
    + right. subst c. by split.
  - intros Hfresh. unfold handleUpdateClaim.
    rewrite <- (List.map_id prev) at 2. apply List.map_ext_in.
    intros c Hin. destruct (decide (claim_id c = claim_id updated)) as [Heq|Hne];
      [|reflexivity].
    exfalso. apply Hfresh. rewrite <- Heq.
    apply list_elem_of_In, List.in_map. exact Hin.
  - unfold handleUpdateClaim. rewrite List.map_map. apply List.map_ext.
    intros c. destruct (decide (claim_id c = claim_id updated)) as [Heq|Hne].
    + by rewrite decide_True.
    + by rewrite decide_False.
Qed.

Lemma handleUpdateClaim_replaces_by_id_witness :
  handleUpdateClaim (with_status Approved claim_intake_started) (claims state0)
  = claims state0
  ∧ status <$> handleUpdateClaim (with_status Approved claim0) (claims state0)
    = [Approved].
Proof.
  destruct (handleUpdateClaim_replaces_by_id
              (with_status Approved claim_intake_started) (claims state0))
    as (_ & _ & Hfresh & _).
  split; [|reflexivity].
  apply Hfresh. vm_compute. intros Hin.
  apply list_elem_of_In in Hin. destruct Hin as [Heq|[]]. discriminate.
Defined.

(** ** What an action leaves alone *)

(** X3. The four sign-off actions (approve estimate, start repair, repair
    completed, pick-up completed) change the status and nothing else: the
    update they publish has the same estimates and the same other fields as
    the claim, and no comment array is touched. In particular approving
    does not change which estimate is current. *)
Theorem signOff_changes_status_only `{Platform}
    (ctl : Control) (claim : Claim) (role : UserRole) (form : Form)
    (t_id t_ts : Z) (h h' : Arrays) (updated : Claim) :
  ctl ∈ signOffs →
  click ctl claim role form t_id t_ts h = (h', Some updated) →
  h' = h
  ∧ same_record claim updated
  ∧ currentEstimate updated = currentEstimate claim
  ∧ repairShopEstimate updated = repairShopEstimate claim
  ∧ agentEstimate updated = agentEstimate claim.
Proof.
  intros Hctl Hclick. unfold click in Hclick.
  destruct (rendered role claim ctl && negb (disabled form ctl));
    [|discriminate].
  unfold signOffs in Hctl.
  repeat (apply elem_of_cons in Hctl as [->|Hctl]);
    [| | | |by apply elem_of_nil in Hctl];
    simpl in Hclick; handler_cases Hclick; by repeat split.
Qed.

Lemma signOff_changes_status_only_witness :
  ∃ updated,
    @click sample_platform ApproveEstimate claim0 InsuranceAgent sample_form
      300000 300001 (arrays state0) = (arrays state0, Some updated)
    ∧ status updated = Approved
    ∧ currentEstimate updated = currentEstimate claim0.
Proof.
  destruct (@click sample_platform ApproveEstimate claim0 InsuranceAgent
              sample_form 300000 300001 (arrays state0))
    as [h' [updated|]] eqn:Hrun; [|vm_compute in Hrun; discriminate].
  destruct (@signOff_changes_status_only sample_platform ApproveEstimate
              claim0 InsuranceAgent sample_form 300000 300001 (arrays state0)
              h' updated) as (-> & _ & Hcur & _).
  - unfold signOffs. apply list_elem_of_here.
  - exact Hrun.
  - exists updated. split; [reflexivity|]. split; [|exact Hcur].
    vm_compute in Hrun. by simplify_eq.
Defined.

(** X4. Who can change which estimate. Whatever control a policyholder acts
    on, none of the three negotiation estimates changes; whatever control a
    repair shop acts on, the agent estimate and the current estimate do not
    change; whatever control an insurance agent acts on, the repair-shop
    estimate does not change. The AI estimate is changed by no action of
    any role. *)
Theorem click_estimates_by_role `{Platform}
    (ctl : Control) (claim : Claim) (role : UserRole) (form : Form)
    (t_id t_ts : Z) (h h' : Arrays) (updated : Claim) :
  click ctl claim role form t_id t_ts h = (h', Some updated) →
  aiEstimate updated = aiEstimate claim
  ∧ (role = Policyholder →
       currentEstimate updated = currentEstimate claim
       ∧ repairShopEstimate updated = repairShopEstimate claim
       ∧ agentEstimate updated = agentEstimate claim)
  ∧ (role = RepairShop →
       currentEstimate updated = currentEstimate claim
       ∧ agentEstimate updated = agentEstimate claim)
  ∧ (role = InsuranceAgent →
       repairShopEstimate updated = repairShopEstimate claim).
Proof.
  intros Hclick. unfold click in Hclick.
  destruct (rendered role claim ctl) eqn:Hrendered; [|discriminate].
  destruct (disabled form ctl); [discriminate|]. simpl in Hclick.
  unfold rendered in Hrendered.
  destruct ctl, role; simplify_eq/=;
    unfold handleApproveEstimate, handleStatusChange, handleRejectClaim,
      handleNegotiate, handleAddComment, alloc in Hclick;
    repeat (case_bool_decide; try done);
    handler_cases Hclick; repeat split; done.
Qed.

Lemma click_estimates_by_role_witness :
  ∃ h' updated,
    @click sample_platform SubmitAdjustment claim0 RepairShop sample_form
      300000 300001 (arrays state0) = (h', Some updated)
    ∧ is_Some (repairShopEstimate updated)
    ∧ currentEstimate updated = currentEstimate claim0
    ∧ agentEstimate updated = None.
Proof.
  destruct (@click sample_platform SubmitAdjustment claim0 RepairShop
              sample_form 300000 300001 (arrays state0))
    as [h' [updated|]] eqn:Hrun; [|vm_compute in Hrun; discriminate].
  destruct (@click_estimates_by_role sample_platform SubmitAdjustment claim0
              RepairShop sample_form 300000 300001 (arrays state0) h' updated
              Hrun) as (_ & _ & Hshop & _).
  destruct (Hshop eq_refl) as [Hcur Hagent].
  exists h', updated. split; [reflexivity|].
  split; [|split; [exact Hcur|by rewrite Hagent]].
  vm_compute in Hrun. simplify_eq. by eexists.
Defined.

(** ** Comments are only ever appended *)

Lemma arrays_grow_refl (h : Arrays) : arrays_grow h h.
Proof. intros r arr Hr. by exists arr. Qed.

Lemma arrays_grow_trans (h1 h2 h3 : Arrays) :
  arrays_grow h1 h2 → arrays_grow h2 h3 → arrays_grow h1 h3.
Proof.
  intros H12 H23 r arr Hr.
  destruct (H12 r arr Hr) as (arr2 & Hr2 & Hp2).
  destruct (H23 r arr2 Hr2) as (arr3 & Hr3 & Hp3).
  exists arr3. split; [exact Hr3|]. by etrans.
Qed.

Lemma push_grows (h : Arrays) (r : ref) (x : Comment) : arrays_grow h (push r x h).
Proof.
  intros r' arr Hr'. unfold push.
  destruct (decide (r = r')) as [->|Hne].
  - exists (arr ++ [x]). rewrite list_lookup_alter_eq, Hr'.
    split; [reflexivity|]. by apply prefix_app_r.
  - exists arr. by rewrite list_lookup_alter_ne.
Qed.

Lemma alloc_grows (h : Arrays) (arr : list Comment) : arrays_grow h (h ++ [arr]).
Proof.
  intros r arr' Hr. exists arr'. split; [|done].
  apply lookup_app_l_Some. exact Hr.
Qed.

Lemma click_grows `{Platform} ctl claim role form t_id t_ts (h h' : Arrays) update :
  click ctl claim role form t_id t_ts h = (h', update) → arrays_grow h h'.
Proof.
  unfold click. intros Hclick.
  destruct (rendered role claim ctl && negb (disabled form ctl)).
  - destruct ctl; simpl in Hclick; handler_cases Hclick;
      first [apply arrays_grow_refl | apply push_grows | apply alloc_grows].
  - injection Hclick as <- _. apply arrays_grow_refl.
Qed.

Lemma step_grows `{Platform} s s' : step s s' → arrays_grow (arrays s) (arrays s').
Proof.
  intros Hstep. destruct Hstep as
    [s role | s c Hc | s claim ctl form t_id t_ts Hsel
    | s data t_id t_created t_updated Hrole Hdata
    | s newId data before after e1 e2 e3 Hpending]; simpl;
    try apply arrays_grow_refl.
  - unfold run.
    destruct (click ctl claim (userRole s) form t_id t_ts (arrays s))
      as [h' update] eqn:Hclick; simpl.
    by eapply click_grows.
  - apply alloc_grows.
Qed.

(** X5. Comments are append-only. Over any sequence of events of the
    application (role switches, selections, actions on controls, claim
    submissions, settling intakes), every comment array that exists keeps
    existing, and its earlier contents stay as a prefix of its later
    contents: no event edits, reorders or deletes a comment. *)
Theorem comments_append_only `{Platform} (s s' : AppState) :
  rtc step s s' →
  ∀ r arr, arrays s !! r = Some arr →
    ∃ arr', arrays s' !! r = Some arr' ∧ arr `prefix_of` arr'.
Proof.
  intros Hrtc. change (arrays_grow (arrays s) (arrays s')).
  induction Hrtc as [s|s1 s2 s3 Hstep _ IH]; [apply arrays_grow_refl|].
  eapply arrays_grow_trans; [by apply step_grows|exact IH].
Qed.

Lemma comments_append_only_witness :
  ∃ arr',
    arrays state_shop_proposed !! 0%nat = Some arr'
    ∧ INITIAL_comments 200000 `prefix_of` arr'
    ∧ length arr' = 2%nat.
Proof.
  assert (Hrtc0 : rtc (@step sample_platform) state0 state_shop_proposed).
  { eapply rtc_l; [apply (step_role _ RepairShop)|].
    eapply rtc_l; [apply (step_select _ claim0); apply list_elem_of_here|].
    apply rtc_once.
    exact (@step_click sample_platform
             (setSelectedClaimId (claim_id claim0) (setUserRole RepairShop state0))
             claim0 SubmitAdjustment sample_form 300000 300001 eq_refl). }
  destruct (@comments_append_only sample_platform state0 state_shop_proposed
              Hrtc0 0%nat (INITIAL_comments 200000) eq_refl)
    as (arr' & Harr & Hprefix).
  exists arr'. split; [exact Harr|]. split; [exact Hprefix|].
  vm_compute in Harr. by simplify_eq.
Defined.

Lemma click_no_update `{Platform} ctl claim role form t_id t_ts (h h' : Arrays) :
  click ctl claim role form t_id t_ts h = (h', None) → h' = h.
Proof.
  unfold click. intros Hclick.
  destruct (rendered role claim ctl && negb (disabled form ctl));
    [|by injection Hclick].
  destruct ctl; simpl in Hclick; handler_cases Hclick; reflexivity.
Qed.

Lemma onClick_comments `{Platform} ctl claim role form t_id t_ts (h h' : Arrays)
    updated :
  onClick ctl claim role form t_id t_ts h = (h', Some updated) →
  comments_live h claim →
  deref h' (comments updated) = deref h (comments claim)
  ∨ ∃ x, deref h' (comments updated) = deref h (comments claim) ++ [x].
Proof.
  intros Hrun Hlive.
  destruct ctl; simpl in Hrun; handler_cases Hrun;
    first [ by left
          | right; eexists; by apply deref_push_same
          | right; eexists; apply deref_alloc_new ].
Qed.

(** X6. The comments of the claim on display only grow. After any action on
    any control of the claim on display, rendered or not, enabled or not,
    the claim has the comments it had before, in the same order, followed
    by at most one new comment. *)
Theorem displayed_comments_only_grow `{Platform}
    (ctl : Control) (claim : Claim) (form : Form) (t_id t_ts : Z) (s : AppState) :
  selectedClaim s = Some claim →
  comments_live (arrays s) claim →
  ∃ claim',
    selectedClaim (run (click ctl claim (userRole s) form t_id t_ts) s)
    = Some claim'
    ∧ (deref (arrays (run (click ctl claim (userRole s) form t_id t_ts) s))
         (comments claim')
       = deref (arrays s) (comments claim)
       ∨ ∃ x,
         deref (arrays (run (click ctl claim (userRole s) form t_id t_ts) s))
           (comments claim')
         = deref (arrays s) (comments claim) ++ [x]).
Proof.
  intros Hsel Hlive.
  destruct (click ctl claim (userRole s) form t_id t_ts (arrays s))
    as [h' [updated|]] eqn:Hclick.
  - exists updated. split; [by eapply run_click_selected|].
    destruct (run_publishes _ _ _ _ Hclick) as (_ & -> & _).
    unfold click in Hclick.
    destruct (rendered (userRole s) claim ctl && negb (disabled form ctl));
      [|discriminate].
    by eapply onClick_comments.
  - pose proof (click_no_update _ _ _ _ _ _ _ _ Hclick) as ->.
    rewrite (run_no_update _ _ Hclick).
    exists claim. split; [exact Hsel|]. by left.
Qed.

Lemma displayed_comments_only_grow_witness :
  let s := setUserRole InsuranceAgent (setSelectedClaimId "1" state0) in
  ∃ claim',
    selectedClaim (run (@click sample_platform DenyAndReject claim0
                          InsuranceAgent sample_form 300000 300001) s)
    = Some claim'
    ∧ status claim' = Rejected
    ∧ length (deref (arrays (run (@click sample_platform DenyAndReject claim0
                                    InsuranceAgent sample_form 300000 300001) s))
                (comments claim')) = 2%nat.
Proof.
  intros s.
  destruct (@displayed_comments_only_grow sample_platform DenyAndReject claim0
              sample_form 300000 300001 s eq_refl)
    as (claim' & Hsel & Hgrow); [vm_compute; lia|].
  exists claim'. split; [exact Hsel|].
  vm_compute in Hsel. injection Hsel as <-. split; reflexivity.
Defined.

(** ** The claim list over time *)

Lemma settle_claim_id newId outcome c :
  claim_id (settle_claim newId outcome c) = claim_id c.
Proof.
  unfold settle_claim.
  destruct outcome as [[[imgs analysis] shops]|];
    by destruct (decide (claim_id c = newId)).
Qed.

Lemma settle_ids newId outcome (l : list Claim) :
  map claim_id (map (settle_claim newId outcome) l) = map claim_id l.
Proof.
  rewrite List.map_map. apply List.map_ext. intros c. apply settle_claim_id.
Qed.

Lemma run_ids (handler : Handler) (s : AppState) :
  map claim_id (claims (run handler s)) = map claim_id (claims s).
Proof.
  unfold run. destruct (handler (arrays s)) as [h' [updated|]]; simpl;
    [apply handleUpdateClaim_ids|reflexivity].
Qed.

(** An event keeps the ids of the list, or puts one new id in front. *)
Lemma step_ids `{Platform} s s' :
  step s s' →
  map claim_id (claims s') = map claim_id (claims s)
  ∨ ∃ newId, map claim_id (claims s') = newId :: map claim_id (claims s)
             ∧ selectedClaimId s' = Some newId.
Proof.
  intros Hstep. destruct Hstep as
    [s role | s c Hc | s claim ctl form t_id t_ts Hsel
    | s data t_id t_created t_updated Hrole Hdata
    | s newId data before after e1 e2 e3 Hpending]; simpl.
  - by left.
  - by left.
  - left. apply run_ids.
  - right. by exists (pretty t_id).
  - left. apply settle_ids.
Qed.

(** X7. No claim is ever removed or reordered. Over any sequence of events
    the ids of the claims listed before are still listed afterwards, in
    the same order, at the end of the list: new claims go in front, and
    nothing else changes which ids are listed. *)
Theorem claims_never_removed `{Platform} (s s' : AppState) :
  rtc step s s' →
  map claim_id (claims s) `suffix_of` map claim_id (claims s').
Proof.
  intros Hrtc. induction Hrtc as [s|s1 s2 s3 Hstep _ IH]; [done|].
  etrans; [|exact IH].
  destruct (step_ids _ _ Hstep) as [->|(newId & -> & _)]; [done|].
  by apply suffix_cons_r.
Qed.

Lemma claims_never_removed_witness :
  map claim_id (claims state0) `suffix_of` map claim_id (claims state_early_rejection)
  ∧ map claim_id (claims state_early_rejection) = ["300000"; "1"].
Proof.
  split; [|reflexivity].
  apply (@claims_never_removed sample_platform).
  eapply rtc_l.
  { apply (@step_submit sample_platform state0 sample_data 300000 300001 300002);
      [discriminate|reflexivity]. }
  eapply rtc_l; [apply (step_role _ InsuranceAgent)|].
  eapply rtc_l.
  { exact (@step_click sample_platform state_intake_started
             claim_intake_started DenyAndReject agent_form 300010 300011
             eq_refl). }
  apply rtc_once.
  exact (@step_settle sample_platform
           (run (@click sample_platform DenyAndReject claim_intake_started
                   InsuranceAgent agent_form 300010 300011)
              state_intake_started)
           "300000" sample_data [] [] env_up env_up env_up eq_refl).
Defined.

(** ** The selection *)

Lemma find_listed_id (i : string) (l : list Claim) :
  i ∈ map claim_id l →
  ∃ c, find (λ c, bool_decide (claim_id c = i)) l = Some c
       ∧ claim_id c = i ∧ c ∈ l.
Proof.
  induction l as [|c l IH]; simpl; [by intros ?%elem_of_nil|].
  intros Hin. case_bool_decide as Hid.
  - exists c. split; [done|]. split; [done|]. apply list_elem_of_here.
  - apply elem_of_cons in Hin as [Heq|Hin]; [by subst|].
    destruct (IH Hin) as (c' & Hfind & Hc' & Hl).
    exists c'. split; [done|]. split; [done|]. by apply list_elem_of_further.
Qed.

Lemma step_selection `{Platform} s s' :
  step s s' →
  (∀ i, selectedClaimId s = Some i → i ∈ map claim_id (claims s)) →
  ∀ i, selectedClaimId s' = Some i → i ∈ map claim_id (claims s').
Proof.
  intros Hstep Hinv. destruct Hstep as
    [s role | s c Hc | s claim ctl form t_id t_ts Hsel
    | s data t_id t_created t_updated Hrole Hdata
    | s newId data before after e1 e2 e3 Hpending]; simpl.
  - exact Hinv.
  - intros i [= <-]. apply list_elem_of_In, List.in_map.
    by apply list_elem_of_In.
  - intros i Hi. rewrite run_ids. apply Hinv.
    unfold run in Hi.
    by destruct (click ctl claim (userRole s) form t_id t_ts (arrays s)).
  - intros i [= <-]. apply list_elem_of_here.
  - intros i Hi. rewrite settle_ids. by apply Hinv.
Qed.

(** X8. The selection never dangles. In every state the application can
    reach, a selected id is the id of a listed claim, so the detail pane
    has a claim to show: [selectedClaim] finds a claim, and that claim has
    the selected id. *)
Theorem selection_never_dangles `{Platform} (s : AppState) (i : string) :
  reachable s →
  selectedClaimId s = Some i →
  ∃ c, selectedClaim s = Some c ∧ claim_id c = i ∧ c ∈ claims s.
Proof.
  intros (t_comment & t_created & t_updated & Hrtc) Hsel.
  assert (Hinv : ∀ i, selectedClaimId s = Some i → i ∈ map claim_id (claims s)).
  { clear i Hsel. revert s Hrtc.
    apply (rtc_ind_r
             (λ s, ∀ i, selectedClaimId s = Some i → i ∈ map claim_id (claims s))).
    - intros i Hi. discriminate.
    - intros s1 s2 _ Hstep IH. by eapply step_selection. }
  unfold selectedClaim. rewrite Hsel. simpl.
  apply find_listed_id. by apply Hinv.
Qed.

Lemma selection_never_dangles_witness :
  ∃ c, selectedClaim state_early_rejection = Some c
       ∧ claim_id c = "300000" ∧ c ∈ claims state_early_rejection.
Proof.
  exact (@selection_never_dangles sample_platform state_early_rejection "300000"
           state_early_rejection_reachable eq_refl).
Defined.

(** ** Policy numbers *)

Lemma onClick_policyNumber `{Platform} ctl claim role form t_id t_ts h h' updated :
  onClick ctl claim role form t_id t_ts h = (h', Some updated) →
  policyNumber updated = policyNumber claim.
Proof.
  intros Hrun. destruct ctl; simpl in Hrun; handler_cases Hrun; reflexivity.
Qed.

Lemma settle_claim_policyNumber newId outcome c :
  policyNumber (settle_claim newId outcome c) = policyNumber c.
Proof.
  unfold settle_claim.
  destruct outcome as [[[imgs analysis] shops]|];
    by destruct (decide (claim_id c = newId)).
Qed.

Lemma step_policyNumber `{Platform} s s' :
  step s s' →
  Forall (λ c, policyNumber c ≠ "") (claims s) →
  Forall (λ c, policyNumber c ≠ "") (claims s').
Proof.
  intros Hstep Hall. destruct Hstep as
    [s role | s c Hc | s claim ctl form t_id t_ts Hsel
    | s data t_id t_created t_updated Hrole Hdata
    | s newId data before after e1 e2 e3 Hpending]; simpl.
  - exact Hall.
  - exact Hall.
  - unfold run.
    destruct (click ctl claim (userRole s) form t_id t_ts (arrays s))
      as [h' [updated|]] eqn:Hclick; simpl; [|exact Hall].
    apply handleUpdateClaim_Forall; [|exact Hall].
    unfold click in Hclick.
    destruct (rendered (userRole s) claim ctl && negb (disabled form ctl));
      [|discriminate].
    rewrite (onClick_policyNumber _ _ _ _ _ _ _ _ _ Hclick).
    rewrite Forall_forall in Hall. apply Hall. by apply selectedClaim_listed.
  - unfold handleCreateClaim_start, alloc; simpl.
    apply Forall_cons. split; [|exact Hall]. simpl.
    unfold submittable, falsy in Hdata.
    apply andb_prop in Hdata as [Hpol _].
    apply negb_true_iff in Hpol. by apply bool_decide_eq_false in Hpol.
  - apply List.Forall_map. eapply Forall_impl; [exact Hall|].
    intros c Hc. simpl. by rewrite settle_claim_policyNumber.
Qed.

(** X9. Every listed claim has a policy number. The new-claim form hands a
    submission on only when its policy number is not empty, no handler and
    no intake step writes the policy number, and the claim of the first
    render has one; so in every reachable state no listed claim has an
    empty policy number. *)
Theorem listed_claims_have_policy_number `{Platform} (s : AppState) (c : Claim) :
  reachable s → c ∈ claims s → policyNumber c ≠ "".
Proof.
  intros (t_comment & t_created & t_updated & Hrtc) Hc.
  assert (Hall : Forall (λ c, policyNumber c ≠ "") (claims s)).
  { clear Hc. revert s Hrtc.
    apply (rtc_ind_r (λ s, Forall (λ c, policyNumber c ≠ "") (claims s))).
    - apply Forall_cons. split; [done|apply Forall_nil_2].
    - intros s1 s2 _ Hstep IH. by eapply step_policyNumber. }
  rewrite Forall_forall in Hall. by apply Hall.
Qed.

Lemma listed_claims_have_policy_number_witness :
  Forall (λ c, policyNumber c ≠ "") (claims state_early_proposal)
  ∧ policyNumber <$> claims state_early_proposal = ["POL-1"; "POL-883920"].
Proof.
  split; [|reflexivity].
  apply Forall_forall. intros c Hc.
  exact (@listed_claims_have_policy_number sample_platform state_early_proposal c
           state_early_proposal_reachable Hc).
Defined.

(** ** The source tags of the stored estimates *)

Lemma analyzeDamage_source `{Platform} env imageFiles vehicleInfo result :
  analyzeDamage env imageFiles vehicleInfo = Some result →
  source (estimate result) = SourceAI.
Proof.
  unfold analyzeDamage, analyzeDamage_try. intros Hrun.
  destruct (mapM (fileToGenerativePart env) imageFiles) as [imageParts|];
    [|discriminate].
  simpl in Hrun. injection Hrun as <-.
  destruct (generateContent env _) as [response|]; [|reflexivity]. simpl.
  destruct (JSON_parse _) as [parsed|]; [|reflexivity]. simpl.
  by destruct parsed.
Qed.

Lemma handleCreateClaim_try_source `{Platform} e1 e2 e3 data imgs analysis shops :
  handleCreateClaim_try e1 e2 e3 data = Some (imgs, analysis, shops) →
  source (estimate analysis) = SourceAI.
Proof.
  unfold handleCreateClaim_try. intros Hrun.
  destruct (processImages e1 (images data)); [|discriminate]. simpl in Hrun.
  destruct (analyzeDamage e2 (images data) _) as [a|] eqn:Ha; [|discriminate].
  simpl in Hrun. injection Hrun as _ <- _.
  by eapply analyzeDamage_source.
Qed.

Lemma onClick_sources `{Platform} ctl claim role form t_id t_ts h h' updated :
  onClick ctl claim role form t_id t_ts h = (h', Some updated) →
  sources_match claim → sources_match updated.
Proof.
  intros Hrun (Hai & Hshop & Hagent & Hcur).
  destruct ctl, role; simpl in Hrun;
    unfold handleApproveEstimate, handleStatusChange, handleRejectClaim,
      handleNegotiate, handleAddComment, alloc in Hrun;
    repeat (case_bool_decide; try done);
    handler_cases Hrun;
    (split; [|split; [|split]]); simpl; intros est Hest; simplify_eq/=;
    eauto.
Qed.

Lemma step_sources `{Platform} s s' :
  step s s' →
  Forall sources_match (claims s) → Forall sources_match (claims s').
Proof.
  intros Hstep Hall. destruct Hstep as
    [s role | s c Hc | s claim ctl form t_id t_ts Hsel
    | s data t_id t_created t_updated Hrole Hdata
    | s newId data before after e1 e2 e3 Hpending]; simpl.
  - exact Hall.
  - exact Hall.
  - unfold run.
    destruct (click ctl claim (userRole s) form t_id t_ts (arrays s))
      as [h' [updated|]] eqn:Hclick; simpl; [|exact Hall].
    apply handleUpdateClaim_Forall; [|exact Hall].
    unfold click in Hclick.
    destruct (rendered (userRole s) claim ctl && negb (disabled form ctl));
      [|discriminate].
    eapply onClick_sources; [exact Hclick|].
    rewrite Forall_forall in Hall. apply Hall. by apply selectedClaim_listed.
  - unfold handleCreateClaim_start, alloc; simpl.
    apply Forall_cons. split; [|exact Hall]. by repeat split.
  - apply List.Forall_map. eapply Forall_impl; [exact Hall|].
    intros c (Hai & Hshop & Hagent & Hcur). unfold settle_claim.
    destruct (handleCreateClaim_try e1 e2 e3 data)
      as [[[imgs analysis] shops]|] eqn:Htry;
      destruct (decide (claim_id c = newId)); try done.
    pose proof (handleCreateClaim_try_source _ _ _ _ _ _ _ Htry) as Hsrc.
    (split; [|split; [|split]]); simpl; intros est Hest; simplify_eq/=; eauto.
Qed.

Lemma initial_sources t_comment t_created t_updated :
  Forall sources_match (claims (initial_state t_comment t_created t_updated)).
Proof.
  apply Forall_cons. split; [|apply Forall_nil_2].
  (split; [|split; [|split]]); simpl; intros est Hest; simplify_eq/=; eauto.
Qed.

(** X10. Every stored estimate carries the source of the field it is stored
    in. In every reachable state and for every listed claim, the AI
    estimate is tagged AI, the repair-shop estimate Repair Shop, the agent
    estimate Insurance Agent; and the current estimate is tagged AI or
    Insurance Agent, never Repair Shop. *)
Theorem stored_estimates_carry_their_source `{Platform} (s : AppState) (c : Claim) :
  reachable s → c ∈ claims s →
  (∀ e, aiEstimate c = Some e → source e = SourceAI)
  ∧ (∀ e, repairShopEstimate c = Some e → source e = SourceRepairShop)
  ∧ (∀ e, agentEstimate c = Some e → source e = SourceInsuranceAgent)
  ∧ (∀ e, currentEstimate c = Some e →
       source e = SourceAI ∨ source e = SourceInsuranceAgent).
Proof.
  intros (t_comment & t_created & t_updated & Hrtc) Hc.
  assert (Hall : Forall sources_match (claims s)).
  { clear Hc. revert s Hrtc.
    apply (rtc_ind_r (λ s, Forall sources_match (claims s)));
      [apply initial_sources|].
    intros s1 s2 _ Hstep IH. by eapply step_sources. }
  rewrite Forall_forall in Hall. by apply Hall.
Qed.

Lemma stored_estimates_carry_their_source_witness :
  ∃ c agent,
    c ∈ claims state_early_proposal
    ∧ agentEstimate c = Some agent
    ∧ source agent = SourceInsuranceAgent.
Proof.
  destruct (claims state_early_proposal) as [|c rest] eqn:Hclaims;
    [vm_compute in Hclaims; discriminate|].
  assert (Hc : c ∈ claims state_early_proposal)
    by (rewrite Hclaims; apply list_elem_of_here).
  destruct (@stored_estimates_carry_their_source sample_platform
              state_early_proposal c state_early_proposal_reachable Hc)
    as (_ & _ & Hagent & _).
  destruct (agentEstimate c) as [agent|] eqn:Ha.
  - exists c, agent. split; [apply list_elem_of_here|]. split; [exact Ha|].
    by apply Hagent.
  - vm_compute in Hclaims. injection Hclaims as <- _. discriminate.
Defined.

(** ** The highlighted estimate card *)

Lemma highlighted_precedence (c : Claim) :
  sources_match c → highlighted c = option_list (Spec.precedence c).
Proof.
  intros (_ & _ & Hagent & _).
  unfold highlighted, estimateCards, Spec.precedence, renderEstimateCard.
  destruct (agentEstimate c) as [agent|] eqn:Ha.
  - rewrite (Hagent agent eq_refl).
    by destruct (aiEstimate c), (repairShopEstimate c).
  - by destruct (aiEstimate c), (repairShopEstimate c).
Qed.

(** X11. The view highlights the estimate of the precedence rule. In every
    reachable state and for every listed claim, exactly the card of the
    agent estimate is highlighted if there is one, otherwise the card of
    the repair-shop estimate if there is one, otherwise the card of the AI
    estimate; so at most one card is highlighted, and none only when the
    claim has no estimate at all. *)
Theorem view_highlights_precedence `{Platform} (s : AppState) (c : Claim) :
  reachable s → c ∈ claims s →
  highlighted c = option_list (Spec.precedence c).
Proof.
  intros (t_comment & t_created & t_updated & Hrtc) Hc.
  apply highlighted_precedence.
  assert (Hall : Forall sources_match (claims s)).
  { clear Hc. revert s Hrtc.
    apply (rtc_ind_r (λ s, Forall sources_match (claims s)));
      [apply initial_sources|].
    intros s1 s2 _ Hstep IH. by eapply step_sources. }
  rewrite Forall_forall in Hall. by apply Hall.
Qed.

Lemma view_highlights_precedence_witness :
  ∃ c shop,
    claims state_shop_proposed = [c]
    ∧ highlighted c = [shop]
    ∧ totalCost shop = 1500%float
    ∧ currentEstimate c = Some INITIAL_estimate.
Proof.
  destruct (claims state_shop_proposed) as [|c rest] eqn:Hclaims;
    [vm_compute in Hclaims; discriminate|].
  assert (Hc : c ∈ claims state_shop_proposed)
    by (rewrite Hclaims; apply list_elem_of_here).
  pose proof (@view_highlights_precedence sample_platform state_shop_proposed c
                state_shop_proposed_reachable Hc) as Hhigh.
  vm_compute in Hclaims. injection Hclaims as <- <-.
  eexists _, _. split; [reflexivity|]. split; [exact Hhigh|]. by split.
Defined.

(** ** Comment threads are not shared between claims *)

Lemma click_ref `{Platform} ctl claim role form t_id t_ts (h h' : Arrays) updated :
  click ctl claim role form t_id t_ts h = (h', Some updated) →
  comments updated = comments claim ∨ comments updated = length h.
Proof.
  unfold click. intros Hclick.
  destruct (rendered role claim ctl && negb (disabled form ctl));
    [|discriminate].
  destruct ctl; simpl in Hclick; handler_cases Hclick; auto.
Qed.

Lemma click_lookup_other `{Platform} ctl claim role form t_id t_ts (h h' : Arrays)
    update (r : ref) :
  click ctl claim role form t_id t_ts h = (h', update) →
  r ≠ comments claim → (r < length h)%nat → h' !! r = h !! r.
Proof.
  unfold click. intros Hclick Hne Hlive.
  destruct (rendered role claim ctl && negb (disabled form ctl));
    [|by injection Hclick as <- _].
  destruct ctl; simpl in Hclick; handler_cases Hclick;
    first [ reflexivity
          | by apply lookup_push_other
          | by apply (lookup_alloc_old h _ r) ].
Qed.

Lemma handleUpdateClaim_elem updated prev c :
  c ∈ handleUpdateClaim updated prev →
  c = updated ∨ (c ∈ prev ∧ claim_id c ≠ claim_id updated).
Proof.
  intros Hc. unfold handleUpdateClaim in Hc.
  apply list_elem_of_In, List.in_map_iff in Hc as (c0 & Hc0 & Hin).
  apply list_elem_of_In in Hin.
  destruct (decide (claim_id c0 = claim_id updated)) as [Heq|Hne].
  - by left.
  - right. subst c. by split.
Qed.

Lemma settle_claim_comments newId outcome c :
  comments (settle_claim newId outcome c) = comments c.
Proof.
  unfold settle_claim.
  destruct outcome as [[[imgs analysis] shops]|];
    by destruct (decide (claim_id c = newId)).
Qed.

Lemma step_threads_apart `{Platform} s s' :
  step s s' →
  Forall (comments_live (arrays s)) (claims s) →
  threads_apart (claims s) → threads_apart (claims s').
Proof.
  intros Hstep Hlive Hsep. rewrite Forall_forall in Hlive.
  destruct Hstep as
    [s role | s c Hc | s claim ctl form t_id t_ts Hsel
    | s data t_id t_created t_updated Hrole Hdata
    | s newId data before after e1 e2 e3 Hpending]; simpl.
  - exact Hsep.
  - exact Hsep.
  - unfold run.
    destruct (click ctl claim (userRole s) form t_id t_ts (arrays s))
      as [h' [updated|]] eqn:Hclick; simpl; [|exact Hsep].
    pose proof (click_claim_id _ _ _ _ _ _ _ _ _ Hclick) as Hid.
    pose proof (click_ref _ _ _ _ _ _ _ _ _ Hclick) as Href.
    pose proof (selectedClaim_listed _ _ Hsel) as Hlisted.
    assert (Hfresh : ∀ c, c ∈ claims s → claim_id c ≠ claim_id updated →
                          comments c ≠ comments updated).
    { intros c Hc Hne. destruct Href as [-> | ->].
      - apply Hsep; [done|done|by rewrite <- Hid].
      - specialize (Hlive c Hc). unfold comments_live in Hlive. lia. }
    intros c1 c2 H1 H2 Hne.
    apply handleUpdateClaim_elem in H1 as [->|[H1 Hn1]];
      apply handleUpdateClaim_elem in H2 as [->|[H2 Hn2]].
    + done.
    + intros Heq. by apply (Hfresh c2 H2 Hn2).
    + by apply Hfresh.
    + by apply Hsep.
  - unfold handleCreateClaim_start, alloc; simpl.
    intros c1 c2 H1 H2 Hne.
    apply elem_of_cons in H1 as [->|H1]; apply elem_of_cons in H2 as [->|H2];
      simpl in *.
    + done.
    + specialize (Hlive c2 H2). unfold comments_live in Hlive. lia.
    + specialize (Hlive c1 H1). unfold comments_live in Hlive. lia.
    + by apply Hsep.
  - intros c1 c2 H1 H2.
    apply list_elem_of_In, List.in_map_iff in H1 as (c1' & <- & H1).
    apply list_elem_of_In, List.in_map_iff in H2 as (c2' & <- & H2).
    rewrite !settle_claim_id, !settle_claim_comments.
    apply Hsep; by apply list_elem_of_In.
Qed.

Lemma reachable_threads_apart `{Platform} (s : AppState) :
  reachable s →
  Forall (comments_live (arrays s)) (claims s) ∧ threads_apart (claims s).
Proof.
  intros (t_comment & t_created & t_updated & Hrtc). revert s Hrtc.
  apply (rtc_ind_r (λ s, Forall (comments_live (arrays s)) (claims s)
                         ∧ threads_apart (claims s))).
  - split.
    + apply Forall_cons. split; [|apply Forall_nil_2].
      unfold comments_live. simpl. lia.
    + intros c1 c2 H1 H2 Hne. simpl in *.
      apply list_elem_of_singleton in H1, H2. by subst.
  - intros s1 s2 _ Hstep [Hlive Hsep]. split.
    + by eapply step_live.
    + by eapply step_threads_apart.
Qed.

(** X12. Claims do not share a comment thread. In every reachable state two
    listed claims with different ids refer to different comment arrays, so
    a comment pushed in place on one claim (a rejection, a proposal) is
    seen through no claim with another id. *)
Theorem comment_threads_not_shared `{Platform} (s : AppState) (c1 c2 : Claim) :
  reachable s → c1 ∈ claims s → c2 ∈ claims s →
  claim_id c1 ≠ claim_id c2 → comments c1 ≠ comments c2.
Proof.
  intros Hreach H1 H2 Hne.
  destruct (reachable_threads_apart s Hreach) as [_ Hsep]. by apply Hsep.
Qed.

Lemma comment_threads_not_shared_witness :
  ∃ c1 c2,
    claims state_early_rejection = [c1; c2]
    ∧ comments c1 ≠ comments c2
    ∧ length (deref (arrays state_early_rejection) (comments c1)) = 1%nat
    ∧ deref (arrays state_early_rejection) (comments c2) = INITIAL_comments 200000.
Proof.
  destruct (claims state_early_rejection) as [|c1 [|c2 rest]] eqn:Hclaims;
    try (vm_compute in Hclaims; discriminate).
  assert (Hsep : comments c1 ≠ comments c2).
  { apply (@comment_threads_not_shared sample_platform state_early_rejection);
      [ apply state_early_rejection_reachable
      | rewrite Hclaims; apply list_elem_of_here
      | rewrite Hclaims; apply list_elem_of_further, list_elem_of_here
      | vm_compute in Hclaims; by injection Hclaims as <- <- _ ]. }
  exists c1, c2.
  assert (rest = []) as -> by (vm_compute in Hclaims; by injection Hclaims).
  split; [reflexivity|]. split; [exact Hsep|].
  vm_compute in Hclaims. injection Hclaims as <- <-. by split.
Defined.

(** X13. An action on the claim on display touches no other claim. In every
    reachable state, whatever the control, the form and the role, a listed
    claim with another id than the claim on display is still listed as the
    same record afterwards, and its comment thread reads the same. *)
Theorem click_leaves_other_claims `{Platform}
    (ctl : Control) (claim c : Claim) (form : Form) (t_id t_ts : Z) (s : AppState) :
  reachable s →
  selectedClaim s = Some claim →
  c ∈ claims s →
  claim_id c ≠ claim_id claim →
  c ∈ claims (run (click ctl claim (userRole s) form t_id t_ts) s)
  ∧ deref (arrays (run (click ctl claim (userRole s) form t_id t_ts) s))
      (comments c)
    = deref (arrays s) (comments c).
Proof.
  intros Hreach Hsel Hc Hne.
  destruct (reachable_threads_apart s Hreach) as [Hlive Hsep].
  rewrite Forall_forall in Hlive.
  pose proof (selectedClaim_listed _ _ Hsel) as Hlisted.
  unfold run.
  destruct (click ctl claim (userRole s) form t_id t_ts (arrays s))
    as [h' update] eqn:Hclick; simpl.
  split.
  - destruct update as [updated|]; [|exact Hc].
    pose proof (click_claim_id _ _ _ _ _ _ _ _ _ Hclick) as Hid.
    apply list_elem_of_lookup in Hc as [i Hi].
    apply list_elem_of_lookup. exists i.
    rewrite (handleUpdateClaim_lookup _ _ _ _ Hi).
    rewrite decide_False; [done|by rewrite Hid].
  - unfold deref. f_equal.
    eapply click_lookup_other; [exact Hclick| |by apply Hlive].
    by apply Hsep.
Qed.

Lemma click_leaves_other_claims_witness :
  let s := run (@click sample_platform DenyAndReject claim_intake_started
                  InsuranceAgent agent_form 300010 300011)
             state_intake_started in
  claim0 ∈ claims s
  ∧ deref (arrays s) (comments claim0) = INITIAL_comments 200000
  ∧ length (deref (arrays s) (comments claim_intake_started)) = 1%nat.
Proof.
  intros s.
  assert (Hreach : @reachable sample_platform state_intake_started).
  { exists 200000, 200000, 200000.
    eapply rtc_l.
    { apply (@step_submit sample_platform state0 sample_data 300000 300001 300002);
        [discriminate|reflexivity]. }
    apply rtc_once. apply (step_role _ InsuranceAgent). }
  destruct (@click_leaves_other_claims sample_platform DenyAndReject
              claim_intake_started claim0 agent_form 300010 300011
              state_intake_started Hreach eq_refl)
    as [Hin Hthread].
  - apply list_elem_of_further, list_elem_of_here.
  - discriminate.
  - split; [exact Hin|]. split; [exact Hthread|]. reflexivity.
Defined.

(** ** Splitting strings *)

Lemma split_comma_split_char (s : string) :
  split_comma s = split_char ","%char s.
Proof.
  induction s as [|c s IH]; [reflexivity|]. simpl. by rewrite IH.
Qed.

Lemma split_char_no_sep (sep : ascii) (s : string) :
  has_char sep s = false → split_char sep s = [s].
Proof.
  induction s as [|c s IH]; [reflexivity|]. simpl.
  intros Hno. apply orb_false_elim in Hno as [Hc Hs].
  by rewrite Hc, (IH Hs).
Qed.

Lemma split_char_ne_nil (sep : ascii) (s : string) : split_char sep s ≠ [].
Proof.
  destruct s as [|c s]; [done|]. simpl.
  destruct (Ascii.eqb c sep); [done|]. by destruct (split_char sep s).
Qed.

Lemma split_char_app (sep : ascii) (a b : string) :
  has_char sep a = false →
  split_char sep (a +:+ String sep b) = a :: split_char sep b.
Proof.
  induction a as [|c a IH]; simpl.
  - intros _. by rewrite Ascii.eqb_refl.
  - intros Hno. apply orb_false_elim in Hno as [Hc Ha].
    by rewrite Hc, (IH Ha).
Qed.

(** ** Reading an image *)

(** X14. [fileToGenerativePart] strips the header of the data URL. When the
    file reads as a data URL made of a header, a comma and a payload, with
    no comma inside the header or the payload, the part holds exactly the
    payload, and the MIME type of the file; the promise rejects exactly
    when the read fails. *)
Theorem fileToGenerativePart_strips_header (env : Env) (file : File) :
  (fileToGenerativePart env file = None ↔ readAsDataURL env file = None)
  ∧ ∀ header payload,
      readAsDataURL env file = Some (header +:+ "," +:+ payload) →
      has_char ","%char header = false →
      has_char ","%char payload = false →
      fileToGenerativePart env file
      = Some {| data := payload; mimeType := file_type file |}.
Proof.
  split; [apply fileToGenerativePart_None|].
  intros header payload Hread Hheader Hpayload. unfold fileToGenerativePart.
  rewrite Hread. simpl.
  rewrite split_comma_split_char.
  change ("," +:+ payload) with (String ","%char payload).
  rewrite (split_char_app _ _ _ Hheader), (split_char_no_sep _ _ Hpayload).
  reflexivity.
Qed.

Lemma fileToGenerativePart_strips_header_witness :
  fileToGenerativePart env_up sample_file
  = Some {| data := "QUJD"; mimeType := "image/jpeg" |}.
Proof.
  apply (proj2 (fileToGenerativePart_strips_header env_up sample_file)
           "data:image/jpeg;base64" "QUJD"); reflexivity.
Defined.

(** ** The verdict on a proposal *)

(** X15. [judgeEstimate] always answers, and never with the empty string:
    the verdict is "Manual review required." when the call of the model
    throws, "Review pending." when the response has no text or an empty
    one, and the text of the response otherwise. *)
Theorem judgeEstimate_always_answers
    (numberToString : JsValue → string) (generate : string → option Response)
    (currentEstimate : Estimate) (newAmount : float) (justification : string) :
  let prompt := judge_prompt numberToString currentEstimate newAmount justification in
  let verdict :=
    judgeEstimate numberToString generate currentEstimate newAmount justification in
  verdict ≠ ""
  ∧ (generate prompt = None → verdict = "Manual review required.")
  ∧ (∀ response, generate prompt = Some response →
       (response_text response = None ∨ response_text response = Some "") →
       verdict = "Review pending.")
  ∧ (∀ response t, generate prompt = Some response →
       response_text response = Some t → t ≠ "" → verdict = t).
Proof.
  intros prompt verdict. subst verdict. unfold judgeEstimate. fold prompt.
  destruct (generate prompt) as [response|] eqn:Hgen.
  - split; [|split; [|split]].
    + unfold or_else. destruct (response_text response) as [t|]; [|done].
      destruct (falsy t) eqn:Ht; [done|]. by apply falsy_false.
    + done.
    + intros ? [= <-] [-> | ->]; reflexivity.
    + intros ? t [= <-] -> Ht. unfold or_else.
      apply falsy_false in Ht. by rewrite Ht.
  - split; [done|]. split; [|split]; try done.
Qed.

Lemma judgeEstimate_always_answers_witness :
  judgeEstimate sample_numberToString (λ _, None) INITIAL_estimate 1500 "Hidden damage"
  = "Manual review required."
  ∧ judgeEstimate sample_numberToString
      (λ _, Some {| response_text := Some ""; candidates := None |})
      INITIAL_estimate 1500 "Hidden damage"
    = "Review pending.".
Proof.
  split.
  - apply (judgeEstimate_always_answers sample_numberToString (λ _, None)
             INITIAL_estimate 1500 "Hidden damage").
    reflexivity.
  - destruct (judgeEstimate_always_answers sample_numberToString
                (λ _, Some {| response_text := Some ""; candidates := None |})
                INITIAL_estimate 1500 "Hidden damage") as (_ & _ & Hpending & _).
    eapply Hpending; [reflexivity|by right].
Defined.

(** ** The suggested shops *)

Lemma omap_length_le {A B} (f : A → option B) (l : list A) :
  (length (omap f l) ≤ length l)%nat.
Proof.
  induction l as [|x l IH]; [done|].
  change (omap f (x :: l))
    with (match f x with Some y => y :: omap f l | None => omap f l end).
  destruct (f x); simpl; lia.
Qed.

Lemma suggestion_of_chunk_fields chunk shop :
  suggestion_of_chunk chunk = Some shop →
  name shop ≠ ""
  ∧ address shop = "Check website for address"
  ∧ rating shop = None
  ∧ ∃ u, websiteUri shop = Some u ∧ u ≠ "".
Proof.
  unfold suggestion_of_chunk.
  destruct (web chunk) as [[[u|] [t|]]|]; try discriminate.
  destruct (falsy u) eqn:Hu; [discriminate|].
  destruct (falsy t) eqn:Ht; [discriminate|]. simpl.
  intros [= <-]. simpl. apply falsy_false in Hu, Ht.
  split; [done|]. split; [done|]. split; [done|]. by exists u.
Qed.

(** X16. What a suggested shop looks like. Every shop that [findRepairShops]
    returns has a name; it is either one of the three hard-coded shops,
    with a street address and a rating but no website, or a shop taken
    from a grounding chunk, with the address "Check website for address",
    a website and no rating. The two kinds are never mixed, and there are
    never more extracted shops than chunks. *)
Theorem findRepairShops_shop_fields
    (env : Env) (locationDesc : option string) (shop : RepairShopSuggestion) :
  shop ∈ findRepairShops env locationDesc →
  name shop ≠ ""
  ∧ (findRepairShops env locationDesc = hardcoded_shops
     ∧ websiteUri shop = None ∧ is_Some (rating shop)
     ∨ (∃ response chunks,
          generateContent env
            (shops_request (default "San Francisco, CA" locationDesc))
          = Some response
          ∧ chunks_of response = Some chunks
          ∧ findRepairShops env locationDesc = omap suggestion_of_chunk chunks
          ∧ (length (findRepairShops env locationDesc) ≤ length chunks)%nat)
       ∧ address shop = "Check website for address"
       ∧ rating shop = None
       ∧ ∃ u, websiteUri shop = Some u ∧ u ≠ "").
Proof.
  unfold findRepairShops.
  destruct (generateContent env _) as [response|] eqn:Hgen;
    [|by intros ?%elem_of_nil].
  destruct (decide (length (extract_suggestions response) = 0%nat)) as [Hz|Hnz].
  - intros Hin. unfold hardcoded_shops in Hin.
    repeat (apply elem_of_cons in Hin as [->|Hin]);
      [| | |by apply elem_of_nil in Hin];
      (split; [done|]); left; (split; [done|]); (split; [done|]); by eexists.
  - unfold extract_suggestions in *.
    destruct (chunks_of response) as [chunks|] eqn:Hchunks; [|done].
    intros Hin. apply list_elem_of_omap in Hin as (chunk & _ & Hshop).
    destruct (suggestion_of_chunk_fields _ _ Hshop) as (Hname & Haddr & Hrat & Huri).
    split; [exact Hname|]. right. split; [|done].
    exists response, chunks. split; [done|]. split; [done|]. split; [done|].
    apply omap_length_le.
Qed.

Lemma findRepairShops_shop_fields_witness :
  ∃ shop,
    findRepairShops env_grounded (Some "Current Location") = [shop]
    ∧ name shop = "Acme Body Shop"
    ∧ address shop = "Check website for address"
    ∧ websiteUri shop = Some "https://acme.example".
Proof.
  destruct (findRepairShops env_grounded (Some "Current Location"))
    as [|shop rest] eqn:Hshops; [vm_compute in Hshops; discriminate|].
  pose proof (findRepairShops_shop_fields env_grounded (Some "Current Location") shop)
    as Hfields.
  rewrite Hshops in Hfields.
  destruct (Hfields (list_elem_of_here _ _)) as (_ & [[Hhard _]|(_ & Haddr & _)]).
  - vm_compute in Hshops. vm_compute in Hhard. simplify_eq.
  - exists shop. vm_compute in Hshops. injection Hshops as <- <-.
    split; [reflexivity|]. split; [reflexivity|]. split; [exact Haddr|].
    reflexivity.
Defined.

(** ** What [analyzeDamage] returns *)

(** X17. [analyzeDamage] returns something exactly when every image can be
    read. It then has called the model once, with one inline part per
    file, in the order of the files (the payload after the first comma of
    the file's data URL, and the file's MIME type), followed by the prompt.
    What it returns is always tagged AI. It is the degraded result when
    the call throws, when the text of the response is no JSON, and when it
    parses to [null]; in every other case the five fields are the five
    properties read from the parsed value as they are, [undefined] where
    the value has no such property: no figure is checked or recomputed. *)
Theorem analyzeDamage_outcomes `{Platform}
    (env : Env) (imageFiles : list File) (vehicleInfo : string) :
  (is_Some (analyzeDamage env imageFiles vehicleInfo)
   ↔ Forall (λ file, is_Some (readAsDataURL env file)) imageFiles)
  ∧ ∀ result,
      analyzeDamage env imageFiles vehicleInfo = Some result →
      source (estimate result) = SourceAI
      ∧ ∃ imageParts,
          Forall2 (λ file part,
                     ∃ url, readAsDataURL env file = Some url
                       ∧ part = {| data := default "" (split_comma url !! 1%nat);
                                   mimeType := file_type file |})
            imageFiles imageParts
          ∧ match generateContent env
                    {| model := "gemini-2.5-flash";
                       contents :=
                         PartsContents
                           (map InlinePart imageParts
                            ++ [TextPart (analysis_prompt vehicleInfo)]);
                       config := JsonSchemaConfig |} with
            | None => result = degraded_analysis
            | Some response =>
                match JSON_parse (or_else (response_text response) "{}") with
                | None | Some JNull => result = degraded_analysis
                | Some parsed =>
                    read_property parsed "assessment" = Some (assessment result)
                    ∧ read_property parsed "totalCost"
                      = Some (totalCost (estimate result))
                    ∧ read_property parsed "laborCost"
                      = Some (laborCost (estimate result))
                    ∧ read_property parsed "partsCost"
                      = Some (partsCost (estimate result))
                    ∧ read_property parsed "repairDetails"
                      = Some (details (estimate result))
                end
            end.
Proof.
  split.
  - rewrite <- not_eq_None_Some, analyzeDamage_throws_only_on_read.
    rewrite <- Forall_Exists_neg.
    apply Forall_proper; [|done]. intros file.
    by rewrite not_eq_None_Some.
  - intros result Hrun.
    split; [by eapply analyzeDamage_source|].
    unfold analyzeDamage, analyzeDamage_try, analysis_request in Hrun.
    destruct (mapM (fileToGenerativePart env) imageFiles) as [imageParts|] eqn:Hparts;
      [|discriminate].
    simpl in Hrun. injection Hrun as <-.
    exists imageParts. split.
    + apply mapM_Some_1 in Hparts.
      eapply Forall2_impl; [exact Hparts|].
      intros file part Hpart. unfold fileToGenerativePart in Hpart.
      destruct (readAsDataURL env file) as [url|]; [|discriminate].
      exists url. split; [reflexivity|]. by injection Hpart as <-.
    + destruct (generateContent env _) as [response|]; [|reflexivity]. simpl.
      destruct (JSON_parse _) as [parsed|]; [|reflexivity]. simpl.
      by destruct parsed.
Qed.

Lemma analyzeDamage_outcomes_witness :
  ∃ result,
    @analyzeDamage sample_platform env_up [sample_file] "2022 Toyota Camry XLE"
    = Some result
    ∧ source (estimate result) = SourceAI
    ∧ totalCost (estimate result) = 1000%float
    ∧ @analyzeDamage sample_platform env_unreadable [sample_file]
        "2022 Toyota Camry XLE" = None.
Proof.
  destruct (@analyzeDamage_outcomes sample_platform env_up [sample_file]
              "2022 Toyota Camry XLE") as [Hsome Hresult].
  destruct (proj2 Hsome) as [result Hrun].
  { apply Forall_cons. split; [by eexists|apply Forall_nil_2]. }
  exists result. split; [exact Hrun|].
  destruct (Hresult result Hrun) as [Hsrc _]. split; [exact Hsrc|].
  vm_compute in Hrun. injection Hrun as <-. split; reflexivity.
Defined.

(** ** What an intake leaves behind *)

Lemma readable_iff (env : Env) (files : list File) :
  Forall (λ file, is_Some (readAsDataURL env file)) files
  ↔ ¬ Exists (λ file, readAsDataURL env file = None) files.
Proof.
  rewrite <- Forall_Exists_neg. apply Forall_proper; [|done].
  intros file. by rewrite not_eq_None_Some.
Qed.

Lemma processImages_None (env : Env) (files : list File) :
  processImages env files = None
  ↔ Exists (λ file, readAsDataURL env file = None) files.
Proof.
  unfold processImages. rewrite mapM_None.
  split; intros Hex; (eapply Exists_impl; [exact Hex|]); intros file; simpl;
    unfold fileToGenerativePart; by destruct (readAsDataURL env file).
Qed.

Lemma handleCreateClaim_try_readable `{Platform} e1 e2 e3 data :
  is_Some (handleCreateClaim_try e1 e2 e3 data)
  ↔ Forall (λ file, is_Some (readAsDataURL e1 file)) (images data)
    ∧ Forall (λ file, is_Some (readAsDataURL e2 file)) (images data).
Proof.
  rewrite <- not_eq_None_Some, handleCreateClaim_try_None, processImages_None.
  rewrite !readable_iff. tauto.
Qed.

Lemma handleCreateClaim_try_results `{Platform} e1 e2 e3 data imgs analysis shops :
  handleCreateClaim_try e1 e2 e3 data = Some (imgs, analysis, shops) →
  length imgs = length (images data)
  ∧ shops = findRepairShops e3 (Some "Current Location").
Proof.
  unfold handleCreateClaim_try. intros Hrun.
  destruct (processImages e1 (images data)) as [processed|] eqn:Hp;
    [|discriminate].
  simpl in Hrun.
  destruct (analyzeDamage e2 (images data) _) as [a|]; [|discriminate].
  simpl in Hrun. injection Hrun as <- <- <-.
  split; [|reflexivity]. symmetry. by eapply length_mapM.
Qed.

Lemma findRepairShops_nil (env : Env) (locationDesc : option string) :
  findRepairShops env locationDesc = []
  ↔ generateContent env (shops_request (default "San Francisco, CA" locationDesc))
    = None.
Proof.
  unfold findRepairShops.
  destruct (generateContent env _) as [response|]; [|done].
  split; [|done]. intros Hempty. by apply suggestions_default in Hempty.
Qed.

(** X18. What an intake leaves behind, when nothing else happens while it
    runs. The new claim is first in the list and selected, with the id
    made from the clock and an empty comment thread of its own; the claims
    listed before follow in their order, and those with another id are
    unchanged. The new claim is never left under AI review. If every image
    can be read (in the intake's own reads and in those of the analysis)
    it is [Estimated], its AI estimate is also its current estimate and is
    tagged AI, it has one stored image per uploaded file, and the
    policyholder is shown the suggested shops unless the shop search
    threw. Otherwise it is [Submitted], has no estimate, no image and no
    shops, and its assessment panel shows the spinner. *)
Theorem intake_outcome `{Platform}
    (e1 e2 e3 : Env) (data : CreateClaimData) (t_id t_created t_updated : Z)
    (s : AppState) :
  let s' := handleCreateClaim e1 e2 e3 data t_id t_created t_updated s in
  let readable :=
    Forall (λ file, is_Some (readAsDataURL e1 file)) (images data)
    ∧ Forall (λ file, is_Some (readAsDataURL e2 file)) (images data) in
  ∃ c rest,
    claims s' = c :: rest
    ∧ map claim_id rest = map claim_id (claims s)
    ∧ (∀ old, old ∈ claims s → claim_id old ≠ pretty t_id → old ∈ rest)
    ∧ claim_id c = pretty t_id
    ∧ selectedClaimId s' = Some (pretty t_id)
    ∧ pending s' = pending s
    ∧ deref (arrays s') (comments c) = []
    ∧ (readable
       ∧ status c = Estimated
       ∧ (∃ e, aiEstimate c = Some e ∧ currentEstimate c = Some e
               ∧ source e = SourceAI)
       ∧ length (damageImages c) = length (images data)
       ∧ (shopsPanel Policyholder c = None
          ↔ generateContent e3 (shops_request "Current Location") = None)
       ∨ ¬ readable
         ∧ status c = Submitted
         ∧ aiEstimate c = None ∧ currentEstimate c = None
         ∧ damageImages c = []
         ∧ (∀ role, shopsPanel role c = None)
         ∧ assessmentPanel c = Analyzing).
Proof.
  intros s' readable. subst s'.
  pose proof (handleCreateClaim_try_readable e1 e2 e3 data) as Hreadable.
  fold readable in Hreadable.
  unfold handleCreateClaim, handleCreateClaim_settle, handleCreateClaim_start,
    alloc. simpl.
  eexists _, _. split; [reflexivity|].
  split; [apply settle_ids|]. split.
  { intros old Hold Hne. apply list_elem_of_In, List.in_map_iff.
    exists old. split; [|by apply list_elem_of_In].
    unfold settle_claim.
    destruct (handleCreateClaim_try e1 e2 e3 data) as [[[imgs analysis] shops]|];
      by rewrite decide_False. }
  split; [apply settle_claim_id|]. split; [reflexivity|].
  split; [reflexivity|]. split.
  { rewrite settle_claim_comments. simpl.
    apply (deref_alloc_new (arrays s) []). }
  unfold settle_claim.
  destruct (handleCreateClaim_try e1 e2 e3 data)
    as [[[imgs analysis] shops]|] eqn:Htry; simpl;
    (rewrite decide_True; [|reflexivity]); simpl.
  - left. split; [apply Hreadable; by eexists|]. split; [reflexivity|].
    split.
    { eexists. split; [reflexivity|]. split; [reflexivity|].
      by eapply handleCreateClaim_try_source. }
    destruct (handleCreateClaim_try_results _ _ _ _ _ _ _ Htry) as [Hlen ->].
    split; [exact Hlen|].
    rewrite <- (findRepairShops_nil e3 (Some "Current Location")).
    unfold shopsPanel. simpl.
    by destruct (findRepairShops e3 (Some "Current Location")).
  - right. split.
    { intros Hr. apply Hreadable in Hr as [x Hx]. discriminate. }
    split; [reflexivity|]. split; [reflexivity|]. split; [reflexivity|].
    split; [reflexivity|]. split; [|reflexivity].
    intros role. unfold shopsPanel. simpl. by destruct (bool_decide _).
Qed.

Lemma intake_outcome_witness :
  ∃ c rest,
    claims (@handleCreateClaim sample_platform env_unreadable env_up env_up
              sample_data 300000 300001 300002 state0) = c :: rest
    ∧ status c = Submitted
    ∧ assessmentPanel c = Analyzing.
Proof.
  destruct (@intake_outcome sample_platform env_unreadable env_up env_up
              sample_data 300000 300001 300002 state0)
    as (c & rest & Hclaims & _ & _ & _ & _ & _ & _ & Hcases).
  exists c, rest. split; [exact Hclaims|].
  destruct Hcases as [([Hread _] & _)|(_ & Hst & _ & _ & _ & _ & Hpanel)].
  - apply Forall_cons in Hread as [[x Hx] _]. discriminate.
  - by split.
Defined.

(** ** The search box *)

Lemma string_prefix_refl (s : string) : String.prefix s s = true.
Proof.
  induction s as [|c s IH]; [reflexivity|]. simpl.
  by destruct (ascii_dec c c).
Qed.

Lemma includes_refl (s : string) : includes s s = true.
Proof.
  destruct s as [|c s]; [reflexivity|].
  change (includes (String c s) (String c s))
    with (String.prefix (String c s) (String c s) || includes s (String c s)).
  by rewrite string_prefix_refl.
Qed.

Lemma includes_empty (s : string) : includes s "" = true.
Proof. by destruct s. Qed.

(** X19. The search of the sidebar. The filtered list is a sublist of the
    claims, in their order; the empty query lists every claim; a claim is
    always found by its own id, and by its own policy number typed in any
    letter case. *)
Theorem filteredClaims_finds
    (toLowerCase : string → string) (claims : list Claim) :
  (∀ searchQuery, filteredClaims toLowerCase searchQuery claims `sublist_of` claims)
  ∧ filteredClaims toLowerCase "" claims = claims
  ∧ (∀ c, c ∈ claims → c ∈ filteredClaims toLowerCase (claim_id c) claims)
  ∧ (∀ c searchQuery,
       c ∈ claims →
       toLowerCase searchQuery = toLowerCase (policyNumber c) →
       c ∈ filteredClaims toLowerCase searchQuery claims).
Proof.
  unfold filteredClaims. split; [|split; [|split]].
  - intros searchQuery. induction claims as [|c claims IH]; [done|]. simpl.
    destruct (_ || _); [by apply sublist_skip|by apply sublist_cons].
  - induction claims as [|c claims IH]; [done|]. simpl.
    by rewrite includes_empty, orb_true_r, IH.
  - intros c Hc. apply list_elem_of_In, List.filter_In.
    split; [by apply list_elem_of_In|].
    by rewrite includes_refl, orb_true_r.
  - intros c searchQuery Hc Hq. apply list_elem_of_In, List.filter_In.
    split; [by apply list_elem_of_In|].
    by rewrite Hq, includes_refl.
Qed.

Lemma filteredClaims_finds_witness :
  filteredClaims sample_toLowerCase "pol-88" (claims state_early_rejection)
  = [claim0]
  ∧ claim0 ∈ filteredClaims sample_toLowerCase "pol-883920"
               (claims state_early_rejection).
Proof.
  split; [reflexivity|].
  destruct (filteredClaims_finds sample_toLowerCase (claims state_early_rejection))
    as (_ & _ & _ & Hpolicy).
  apply Hpolicy; [|reflexivity].
  apply list_elem_of_further, list_elem_of_here.
Defined.

(** ** Sign-offs *)

(** X20. The line "No pending actions for you at this stage." is shown
    exactly when none of the four sign-off buttons is, and no role is ever
    offered two sign-off buttons at once. *)
Theorem noPendingActions_iff_no_signOff (role : UserRole) (claim : Claim) :
  noPendingActions role claim = negb (existsb (rendered role claim) signOffs)
  ∧ (length (List.filter (rendered role claim) signOffs) ≤ 1)%nat.
Proof.
  unfold noPendingActions, signOffs, rendered. simpl.
  destruct role, (status claim); vm_compute; split; (reflexivity || lia).
Qed.

(** ** The heading of the detail pane *)

(** X21. The heading of a claim. It shows what stands between the first and
    the second dash of the policy number; when the policy number has no
    dash, or nothing between its first and second dash, it shows the claim
    id instead. *)
Theorem claimTitle_piece (claim : Claim) :
  (has_char "-"%char (policyNumber claim) = false →
   claimTitle claim = "Claim #" +:+ claim_id claim)
  ∧ ∀ head piece tail,
      has_char "-"%char head = false →
      has_char "-"%char piece = false →
      (policyNumber claim = head +:+ "-" +:+ piece
       ∨ policyNumber claim = head +:+ "-" +:+ piece +:+ "-" +:+ tail) →
      claimTitle claim
      = "Claim #" +:+ (if decide (piece = "") then claim_id claim else piece).
Proof.
  unfold claimTitle. split.
  - intros Hno. by rewrite (split_char_no_sep _ _ Hno).
  - intros head piece tail Hhead Hpiece Hpol.
    assert (Hsecond : split_char "-"%char (policyNumber claim) !! 1%nat = Some piece).
    { destruct Hpol as [-> | ->].
      - change ("-" +:+ piece) with (String "-"%char piece).
        by rewrite (split_char_app _ _ _ Hhead), (split_char_no_sep _ _ Hpiece).
      - change ("-" +:+ piece +:+ "-" +:+ tail)
          with (String "-"%char (piece +:+ String "-"%char tail)).
        by rewrite (split_char_app _ _ _ Hhead), (split_char_app _ _ _ Hpiece). }
    rewrite Hsecond. unfold or_else, falsy.
    destruct (decide (piece = "")) as [->|Hne]; [done|].
    by rewrite bool_decide_eq_false_2.
Qed.

Lemma claimTitle_piece_witness :
  claimTitle claim0 = "Claim #883920"
  ∧ claimTitle (baseClaim sample_data "300000" 1 300001 300002) = "Claim #1".
Proof.
  split.
  - apply (proj2 (claimTitle_piece claim0) "POL" "883920" ""); try reflexivity.
    by left.
  - apply (proj2 (claimTitle_piece (baseClaim sample_data "300000" 1 300001 300002))
             "POL" "1" ""); try reflexivity.
    by left.
Defined.

(** ** An intake that settles late *)

(** X22. The final update of an intake looks only at the id. Whenever it
    runs, and whatever has happened to the claim since it was submitted,
    every listed claim with the intake's id ends [Estimated], with the AI
    estimate as its current estimate, or [Submitted] when an image could
    not be read, even if it had been rejected, approved or closed in the
    meantime; its comment thread, its agent estimate and its repair-shop
    estimate are kept. Claims with another id, the comment arrays and the
    selection are untouched. *)
Theorem settle_looks_only_at_id `{Platform}
    (e1 e2 e3 : Env) (newId : string) (data : CreateClaimData) (s : AppState)
    (i : nat) (c : Claim) :
  claims s !! i = Some c →
  ∃ c',
    claims (handleCreateClaim_settle e1 e2 e3 newId data s) !! i = Some c'
    ∧ arrays (handleCreateClaim_settle e1 e2 e3 newId data s) = arrays s
    ∧ selectedClaimId (handleCreateClaim_settle e1 e2 e3 newId data s)
      = selectedClaimId s
    ∧ claim_id c' = claim_id c
    ∧ comments c' = comments c
    ∧ agentEstimate c' = agentEstimate c
    ∧ repairShopEstimate c' = repairShopEstimate c
    ∧ (claim_id c ≠ newId → c' = c)
    ∧ (claim_id c = newId →
       status c' = Estimated ∧ is_Some (aiEstimate c')
       ∧ currentEstimate c' = aiEstimate c'
       ∨ status c' = Submitted ∧ aiEstimate c' = aiEstimate c
         ∧ currentEstimate c' = currentEstimate c).
Proof.
  intros Hi. exists (settle_claim newId (handleCreateClaim_try e1 e2 e3 data) c).
  split.
  { simpl. change (map ?f ?l) with (f <$> l). by rewrite list_lookup_fmap, Hi. }
  split; [reflexivity|]. split; [reflexivity|].
  split; [apply settle_claim_id|]. split; [apply settle_claim_comments|].
  unfold settle_claim.
  destruct (handleCreateClaim_try e1 e2 e3 data) as [[[imgs analysis] shops]|];
    destruct (decide (claim_id c = newId)) as [Hid|Hid]; simpl;
    repeat split; try done.
  - intros _. left. split; [done|]. split; [by eexists|done].
  - intros _. by right.
Qed.

Lemma settle_looks_only_at_id_witness :
  let rejected := run (@click sample_platform DenyAndReject claim_intake_started
                         InsuranceAgent agent_form 300010 300011)
                    state_intake_started in
  ∃ c c',
    claims rejected !! 0%nat = Some c ∧ status c = Rejected
    ∧ claims (@handleCreateClaim_settle sample_platform env_up env_up env_up
                "300000" sample_data rejected) !! 0%nat = Some c'
    ∧ status c' = Estimated
    ∧ comments c' = comments c.
Proof.
  intros rejected.
  destruct (claims rejected !! 0%nat) as [c|] eqn:Hc;
    [|vm_compute in Hc; discriminate].
  destruct (@settle_looks_only_at_id sample_platform env_up env_up env_up
              "300000" sample_data rejected 0%nat c Hc)
    as (c' & Hc' & _ & _ & _ & Hcomments & _).
  exists c, c'. split; [reflexivity|].
  split; [vm_compute in Hc; by injection Hc as <-|].
  split; [exact Hc'|]. split; [|exact Hcomments].
  vm_compute in Hc'. by injection Hc' as <-.
Defined.

(** ** Who signs a comment *)

(** X23. Every comment that an action adds is signed by the acting user.
    When an action on a rendered, enabled control publishes an update, the
    thread of the update is the thread of the claim, either unchanged or
    followed by one comment whose author role is the role of the acting
    user, whose id and time are the two clock readings of the handler,
    and whose author name is the name of the role, except that a rejection
    is signed "Agent" rather than "Insurance Agent". *)
Theorem click_signs_comment `{Platform}
    (ctl : Control) (claim : Claim) (role : UserRole) (form : Form)
    (t_id t_ts : Z) (h h' : Arrays) (updated : Claim) :
  click ctl claim role form t_id t_ts h = (h', Some updated) →
  comments_live h claim →
  deref h' (comments updated) = deref h (comments claim)
  ∨ ∃ x,
      deref h' (comments updated) = deref h (comments claim) ++ [x]
      ∧ authorRole x = role
      ∧ comment_id x = pretty t_id
      ∧ timestamp x = t_ts
      ∧ authorName x = match ctl with
                       | DenyAndReject => "Agent"
                       | _ => UserRole_value role
                       end.
Proof.
  unfold click. intros Hclick Hlive.
  destruct (rendered role claim ctl && negb (disabled form ctl)) eqn:Hshown;
    [|discriminate].
  apply andb_prop in Hshown as [Hrendered _].
  destruct ctl; simpl in Hclick, Hrendered.
  - handler_cases Hclick. by left.
  - handler_cases Hclick. by left.
  - handler_cases Hclick. by left.
  - handler_cases Hclick. by left.
  - apply andb_prop in Hrendered as [Hrendered _].
    apply andb_prop in Hrendered as [Hagent _].
    apply bool_decide_eq_true in Hagent. subst role.
    handler_cases Hclick. right. eexists.
    split; [by apply deref_push_same|]. by repeat split.
  - unfold handleNegotiate in Hclick.
    destruct (falsy (negotiationAmount form) || falsy (negotiationReason form));
      [discriminate|].
    injection Hclick as <- <-. right.
    destruct (bool_decide (role = RepairShop)),
      (bool_decide (role = InsuranceAgent));
      (eexists; split; [by apply deref_push_same|by repeat split]).
  - handler_cases Hclick. right. eexists.
    split; [apply deref_alloc_new|]. by repeat split.
Qed.

Lemma click_signs_comment_witness :
  ∃ h' updated x,
    @click sample_platform DenyAndReject claim0 InsuranceAgent sample_form
      300000 300001 (arrays state0) = (h', Some updated)
    ∧ deref h' (comments updated) = INITIAL_comments 200000 ++ [x]
    ∧ authorRole x = InsuranceAgent
    ∧ authorName x = "Agent".
Proof.
  destruct (@click sample_platform DenyAndReject claim0 InsuranceAgent sample_form
              300000 300001 (arrays state0)) as [h' [updated|]] eqn:Hclick;
    [|vm_compute in Hclick; discriminate].
  destruct (@click_signs_comment sample_platform DenyAndReject claim0
              InsuranceAgent sample_form 300000 300001 (arrays state0) h' updated
              Hclick) as [Hsame|(x & Hx & Hrole & _ & _ & Hname)].
  - vm_compute. lia.
  - vm_compute in Hclick. injection Hclick as <- <-. vm_compute in Hsame.
    discriminate.
  - exists h', updated, x. split; [reflexivity|]. split; [exact Hx|]. by split.
Defined.
